(** * Cash register change engine: a shallow embedding and its properties

    The development follows [src/domain/ChangeStrategy.ts] (the two
    calculation strategies, the bounded cache and the strategy factory),
    [src/domain/ChangeCalculator.ts] (validation, zero-change short cut,
    batch processing), [src/domain/Currency.ts] (the data model and the
    error classes), [src/config/currencies.ts] (the US and EUR tables and
    the registry), and the batch endpoint of
    [src/api/controllers/ChangeCalculatorController.ts] with the error
    handler that answers what it forwards.

    Conventions of the embedding.
    - Amounts in cents, counts and denomination values are JavaScript
      numbers holding integers below 2^53; they are modelled as [Z].  The
      data model asks denomination values to be positive; a division by a
      zero value (Infinity / NaN in JavaScript) is outside the model.
    - Numbers that are not integers (the draws of [Math.random], the
      products with 0.6, 0.9, 0.5 and 0.7, the decimal amounts of a batch)
      are finite binary64 values, modelled by the primitive floats of the
      kernel, so that the arithmetic is the one the engine executes.
    - A JavaScript [Map] iterates in insertion order; it is an association
      list in that order, with [set] overwriting in place.
    - Mutable objects are passed explicitly: a strategy instance, the list
      of strategies of a factory, and the process-wide [Math.random]. *)

From Stdlib Require Import ZArith List String Ascii Bool Lia.
From Stdlib Require Import QArith Qround.
From Stdlib Require Import Floats Uint63.
From Stdlib Require Import Decimal DecimalString DecimalZ DecimalPos.
From Stdlib Require Import Permutation.
Import ListNotations.

Set Warnings "-inexact-float".
Open Scope Z_scope.

(** ** JavaScript values *)

(** [Map<string, V>]: entries in insertion order, keys unique. *)
Module JSMap.

Definition t (V : Type) : Type := list (string * V).

Definition empty {V : Type} : t V := [].

Fixpoint get {V : Type} (k : string) (m : t V) : option V :=
  match m with
  | [] => None
  | (k', v) :: m' => if String.eqb k k' then Some v else get k m'
  end.

(** [set] keeps the position of a key that is already present and appends
    a new key at the end. *)
Fixpoint set {V : Type} (k : string) (v : V) (m : t V) : t V :=
  match m with
  | [] => [(k, v)]
  | (k', v') :: m' =>
      if String.eqb k k' then (k', v) :: m' else (k', v') :: set k v m'
  end.

Fixpoint delete {V : Type} (k : string) (m : t V) : t V :=
  match m with
  | [] => []
  | (k', v') :: m' =>
      if String.eqb k k' then m' else (k', v') :: delete k m'
  end.

Definition size {V : Type} (m : t V) : Z := Z.of_nat (List.length m).

Definition keys {V : Type} (m : t V) : list string := map fst m.

(** [m.keys().next().value]: the oldest key, [None] for [undefined]. *)
Definition firstKey {V : Type} (m : t V) : option string :=
  match m with
  | [] => None
  | (k, _) :: _ => Some k
  end.

End JSMap.

(** Template-literal rendering of an integer: [`${n}`]. *)
Definition numberToString (n : Z) : string :=
  NilZero.string_of_int (Z.to_int n).

(** Truthiness of a string: the empty string is falsy. *)
Definition truthy (s : string) : bool :=
  match s with
  | EmptyString => false
  | String _ _ => true
  end.

(** [a % b] on integers: the remainder has the sign of the dividend, and a
    zero divisor gives NaN, written [None]. *)
Definition jsRem (a b : Z) : option Z :=
  if b =? 0 then None else Some (Z.rem a b).

(** [x === 0], false on NaN. *)
Definition isZero (x : option Z) : bool :=
  match x with
  | Some 0 => true
  | _ => false
  end.

Module Math.

(** The integer [n] as a binary64 value (exact below 2^53). *)
Definition ofInt (n : Z) : float :=
  match n with
  | Z0 => 0%float
  | Zpos _ => PrimFloat.of_uint63 (Uint63.of_Z n)
  | Zneg p => PrimFloat.opp (PrimFloat.of_uint63 (Uint63.of_Z (Zpos p)))
  end.

(** [Math.floor] of a finite value, read off its mantissa and exponent;
    the engine never applies it to NaN or an infinity. *)
Definition floor (x : float) : Z :=
  match Prim2SF x with
  | S754_finite s m e =>
      let v := if s then Zneg m else Zpos m in
      if 0 <=? e then v * 2 ^ e else v / 2 ^ (- e)
  | _ => 0
  end.

Definition ceil (x : float) : Z := - floor (- x)%float.

(** [Math.round] of a finite value: the nearest integer, a tie going to
    the larger one. *)
Definition round (x : float) : Z :=
  match Prim2SF x with
  | S754_finite s m e =>
      let v := if s then Zneg m else Zpos m in
      if 0 <=? e then v * 2 ^ e
      else (2 * v + 2 ^ (- e)) / (2 * 2 ^ (- e))
  | _ => 0
  end.

(** The rational number a binary64 value stands for. *)
Definition value (x : float) : Q :=
  match Prim2SF x with
  | S754_finite s m e =>
      let v := if s then Zneg m else Zpos m in
      if 0 <=? e then inject_Z (v * 2 ^ e)
      else Qmake v (Z.to_pos (2 ^ (- e)))
  | _ => 0%Q
  end.

End Math.

(** The process-wide [Math.random].  It is either the generator of the
    engine, an arbitrary sequence of draws read in order, or the closure
    that [setupSeededRandom] installs, which owns the variable [seed]. *)
Inductive MathRandom : Type :=
| NativeRandom (draws : nat -> float) (next : nat)
| SeededRandom (seed : Z).

Definition Math_random (g : MathRandom) : float * MathRandom :=
  match g with
  | NativeRandom draws n => (draws n, NativeRandom draws (S n))
  | SeededRandom seed =>
      let seed' := Z.rem (seed * 9301 + 49297) 233280 in
      ((Math.ofInt seed' / Math.ofInt 233280)%float, SeededRandom seed')
  end.

(** ** Data model *)

(** The interfaces and the error classes of [src/domain/Currency.ts].
    Of each interface the records keep the fields that the engine reads:
    the display [name] and [symbol] of a currency and the optional [symbol]
    of a denomination are never read by it.  The map of a [ChangeResult]
    is the field [denominations] of the source. *)
Record Denomination : Type := {
  name : string;
  valueInCents : Z
}.

Record Currency : Type := {
  code : string;
  denominations : list Denomination
}.

Record Transaction : Type := {
  amountOwedInCents : Z;
  amountPaidInCents : Z;
  changeInCents : Z
}.

Record SpecialRuleConfig : Type := {
  divisor : Z;
  description : string
}.

Record ChangeResult : Type := {
  totalChangeInCents : Z;
  resultDenominations : JSMap.t Z;
  formattedOutput : string
}.

Inductive CashRegisterError : Type :=
| InvalidAmountError (amount : Z)
| InsufficientPaymentError (amountOwed amountPaid : Z).

(** [src/config/currencies.ts] *)
Definition US_DENOMINATIONS : list Denomination :=
  [ {| name := "dollar"; valueInCents := 100 |};
    {| name := "quarter"; valueInCents := 25 |};
    {| name := "dime"; valueInCents := 10 |};
    {| name := "nickel"; valueInCents := 5 |};
    {| name := "penny"; valueInCents := 1 |} ].

Definition US_CURRENCY : Currency :=
  {| code := "USD"; denominations := US_DENOMINATIONS |}.

(** [[...denominations].sort((a, b) => b.valueInCents - a.valueInCents)]:
    a stable sort, largest value first. *)
Fixpoint insertDescending (d : Denomination) (l : list Denomination)
  : list Denomination :=
  match l with
  | [] => [d]
  | x :: l' =>
      if valueInCents x <=? valueInCents d then d :: x :: l'
      else x :: insertDescending d l'
  end.

Fixpoint sortDescending (l : list Denomination) : list Denomination :=
  match l with
  | [] => []
  | d :: l' => insertDescending d (sortDescending l')
  end.

(** [currency.denominations.find((d) => d.name === name)] *)
Definition findDenomination (currency : Currency) (n : string)
  : option Denomination :=
  find (fun d => String.eqb (name d) n) (denominations currency).

(** ** Minimal-count strategy *)

Module GreedyChangeStrategy.

Definition shouldApply (transaction : Transaction)
  (config : option SpecialRuleConfig) : bool :=
  match config with
  | None => true
  | Some c => negb (isZero (jsRem (changeInCents transaction) (divisor c)))
  end.

Definition pluralize (n : string) : string :=
  if String.eqb n "penny" then "pennies"%string else (n ++ "s")%string.

(** The loop of [formatOutput], pushing one part per positive count. *)
Definition pushPart (parts : list string) (entry : string * Z)
  : list string :=
  let (n, count) := entry in
  if count >? 0 then
    let pluralName := if count =? 1 then n else pluralize n in
    parts ++ [(numberToString count ++ " " ++ pluralName)%string]
  else parts.

Definition formatOutput (denoms : JSMap.t Z) : string :=
  String.concat "," (fold_left pushPart denoms []).

(** The loop over the sorted denominations: the mapping built so far and
    the change that remains. *)
Fixpoint fill (sorted : list Denomination) (denoms : JSMap.t Z)
  (remainingChange : Z) : JSMap.t Z * Z :=
  match sorted with
  | [] => (denoms, remainingChange)
  | d :: rest =>
      if valueInCents d <=? remainingChange then
        let count := remainingChange / valueInCents d in
        fill rest (JSMap.set (name d) count denoms)
          (remainingChange - count * valueInCents d)
      else fill rest denoms remainingChange
  end.

Definition calculateChange (transaction : Transaction)
  (currency : Currency) : ChangeResult :=
  let change := changeInCents transaction in
  let sorted := sortDescending (denominations currency) in
  let denoms := fst (fill sorted JSMap.empty change) in
  {| totalChangeInCents := change;
     resultDenominations := denoms;
     formattedOutput := formatOutput denoms |}.

End GreedyChangeStrategy.

(** ** Randomized strategy and its cache *)

Module RandomChangeStrategy.

Definition maxAttempts : Z := 500.
Definition maxCacheSize : Z := 1000.

Record t : Type := {
  randomSeed : option Z;
  cache : JSMap.t (JSMap.t Z)
}.

(** The constructor; with a seed it replaces the process-wide
    [Math.random] by the seeded closure. *)
Definition new (seed : option Z) (g : MathRandom) : t * MathRandom :=
  ({| randomSeed := seed; cache := JSMap.empty |},
   match seed with
   | Some s => SeededRandom s
   | None => g
   end).

Definition shouldApply (transaction : Transaction)
  (config : option SpecialRuleConfig) : bool :=
  match config with
  | None => false
  | Some c => isZero (jsRem (changeInCents transaction) (divisor c))
  end.

Definition pluralize (n : string) : string :=
  if String.eqb n "penny" then "pennies"%string else (n ++ "s")%string.

Definition pushPart (parts : list string) (entry : string * Z)
  : list string :=
  let (n, count) := entry in
  if count >? 0 then
    let pluralName := if count =? 1 then n else pluralize n in
    parts ++ [(numberToString count ++ " " ++ pluralName)%string]
  else parts.

Definition formatOutput (denoms : JSMap.t Z) : string :=
  String.concat "," (fold_left pushPart denoms []).

(** The loop of [isValidCombination], [total] being the running sum. *)
Fixpoint sumsTo (currency : Currency) (entries : JSMap.t Z) (total : Z)
  (targetAmount : Z) : bool :=
  match entries with
  | [] => total =? targetAmount
  | (n, count) :: rest =>
      match findDenomination currency n with
      | None => false
      | Some d =>
          sumsTo currency rest (total + count * valueInCents d) targetAmount
      end
  end.

Definition isValidCombination (denoms : JSMap.t Z) (targetAmount : Z)
  (currency : Currency) : bool :=
  sumsTo currency denoms 0 targetAmount.

(** A heuristic returns its candidate and leaves [Math.random] advanced
    by the draws it made.  (The private method [generateRandomCombination]
    is never called and is not embedded.) *)
Definition Heuristic : Type :=
  Z -> list Denomination -> MathRandom -> JSMap.t Z * MathRandom.

Fixpoint biasLargerLoop (sorted : list Denomination) (denoms : JSMap.t Z)
  (remainingChange : Z) (g : MathRandom) : JSMap.t Z * MathRandom :=
  match sorted with
  | [] => (denoms, g)
  | d :: rest =>
      if remainingChange >? 0 then
        let maxCount := remainingChange / valueInCents d in
        if maxCount >? 0 then
          let minBias := Math.ceil (Math.ofInt maxCount * 0.6)%float in
          let maxBias := Math.ceil (Math.ofInt maxCount * 0.9)%float in
          let (r, g1) := Math_random g in
          let count :=
            Math.floor (r * Math.ofInt (maxBias - minBias + 1))%float
            + minBias in
          if count >? 0 then
            biasLargerLoop rest
              (JSMap.set (name d) (Z.min count maxCount) denoms)
              (remainingChange - Z.min count maxCount * valueInCents d) g1
          else biasLargerLoop rest denoms remainingChange g1
        else biasLargerLoop rest denoms remainingChange g
      else (denoms, g)
  end.

Definition generateRandomWithBiasTowardsLarger : Heuristic :=
  fun change sorted g => biasLargerLoop sorted JSMap.empty change g.

Fixpoint uniformLoop (sorted : list Denomination) (denoms : JSMap.t Z)
  (remainingChange : Z) (g : MathRandom) : JSMap.t Z * MathRandom :=
  match sorted with
  | [] => (denoms, g)
  | d :: rest =>
      if remainingChange >? 0 then
        let maxCount := remainingChange / valueInCents d in
        if maxCount >? 0 then
          let (r, g1) := Math_random g in
          let count := Math.floor (r * Math.ofInt (maxCount + 1))%float in
          if count >? 0 then
            uniformLoop rest (JSMap.set (name d) count denoms)
              (remainingChange - count * valueInCents d) g1
          else uniformLoop rest denoms remainingChange g1
        else uniformLoop rest denoms remainingChange g
      else (denoms, g)
  end.

Definition generateRandomWithUniformDistribution : Heuristic :=
  fun change sorted g => uniformLoop sorted JSMap.empty change g.

Fixpoint biasSmallerLoop (reversed : list Denomination)
  (denoms : JSMap.t Z) (remainingChange : Z) (g : MathRandom)
  : JSMap.t Z * MathRandom :=
  match reversed with
  | [] => (denoms, g)
  | d :: rest =>
      let maxCount := remainingChange / valueInCents d in
      if maxCount >? 0 then
        let (r0, g1) := Math_random g in
        let bias := PrimFloat.ltb r0 0.7 in
        let (r1, g2) := Math_random g1 in
        let count :=
          if bias then
            Math.floor (r1 * Math.ofInt maxCount)%float
            + Math.floor (Math.ofInt maxCount * 0.5)%float
          else Math.floor (r1 * Math.ofInt (maxCount + 1))%float in
        let actualCount := Z.min count maxCount in
        if actualCount >? 0 then
          biasSmallerLoop rest (JSMap.set (name d) actualCount denoms)
            (remainingChange - actualCount * valueInCents d) g2
        else biasSmallerLoop rest denoms remainingChange g2
      else biasSmallerLoop rest denoms remainingChange g
  end.

Definition generateRandomWithBiasTowardsSmaller : Heuristic :=
  fun change sorted g => biasSmallerLoop (List.rev sorted) JSMap.empty change g.

(** The inner loop of [generateOptimizedRandomCombination]: up to
    [attempts] candidates of one heuristic, the first valid one wins. *)
Fixpoint tryAttempts (strategy : Heuristic) (attempts : nat)
  (change : Z) (sorted : list Denomination) (currency : Currency)
  (g : MathRandom) : option (JSMap.t Z) * MathRandom :=
  match attempts with
  | O => (None, g)
  | S k =>
      let (candidate, g1) := strategy change sorted g in
      if isValidCombination candidate change currency
      then (Some candidate, g1)
      else tryAttempts strategy k change sorted currency g1
  end.

(** The outer loop, over the heuristics in their fixed order. *)
Fixpoint tryStrategies (strategies : list Heuristic) (attempts : nat)
  (change : Z) (sorted : list Denomination) (currency : Currency)
  (g : MathRandom) : option (JSMap.t Z) * MathRandom :=
  match strategies with
  | [] => (None, g)
  | strategy :: rest =>
      match tryAttempts strategy attempts change sorted currency g with
      | (Some candidate, g1) => (Some candidate, g1)
      | (None, g1) => tryStrategies rest attempts change sorted currency g1
      end
  end.

Definition strategies : list Heuristic :=
  [ generateRandomWithBiasTowardsLarger;
    generateRandomWithUniformDistribution;
    generateRandomWithBiasTowardsSmaller ].

Definition attemptsPerStrategy : nat :=
  Z.to_nat (maxAttempts / Z.of_nat (List.length strategies)).

Definition generateOptimizedRandomCombination (change : Z)
  (currency : Currency) (g : MathRandom)
  : option (JSMap.t Z) * MathRandom :=
  let sorted := sortDescending (denominations currency) in
  tryStrategies strategies attemptsPerStrategy change sorted currency g.

Definition cacheKey (change : Z) (currency : Currency) : string :=
  (numberToString change ++ "-" ++ code currency)%string.

(** [cacheResult]: at capacity the first key of the map goes, then the
    result is stored under [key]. *)
Definition cacheResult (key : string) (result : JSMap.t Z)
  (c : JSMap.t (JSMap.t Z)) : JSMap.t (JSMap.t Z) :=
  let c1 :=
    if maxCacheSize <=? JSMap.size c then
      match JSMap.firstKey c with
      | Some firstKey =>
          if truthy firstKey then JSMap.delete firstKey c else c
      | None => c
      end
    else c in
  JSMap.set key result c1.

Definition calculateChange (self : t) (transaction : Transaction)
  (currency : Currency) (g : MathRandom) : ChangeResult * t * MathRandom :=
  let change := changeInCents transaction in
  let key := cacheKey change currency in
  match JSMap.get key (cache self) with
  | Some cachedResult =>
      ({| totalChangeInCents := change;
          resultDenominations := cachedResult;
          formattedOutput := formatOutput cachedResult |}, self, g)
  | None =>
      match generateOptimizedRandomCombination change currency g with
      | (None, g1) =>
          (GreedyChangeStrategy.calculateChange transaction currency,
           self, g1)
      | (Some bestResult, g1) =>
          ({| totalChangeInCents := change;
              resultDenominations := bestResult;
              formattedOutput := formatOutput bestResult |},
           {| randomSeed := randomSeed self;
              cache := cacheResult key bestResult (cache self) |}, g1)
      end
  end.

Definition clearCache (self : t) : t :=
  {| randomSeed := randomSeed self; cache := JSMap.empty |}.

Definition getCacheStats (self : t) : Z * Z :=
  (JSMap.size (cache self), maxCacheSize).

End RandomChangeStrategy.

(** ** Strategy objects and the factory *)

(** An object implementing [ChangeStrategy]: one of the two classes, the
    randomized one with the state of the instance. *)
Inductive Strategy : Type :=
| Random (self : RandomChangeStrategy.t)
| Greedy.

Module ChangeStrategy.

Definition shouldApply (s : Strategy) (transaction : Transaction)
  (config : option SpecialRuleConfig) : bool :=
  match s with
  | Random _ => RandomChangeStrategy.shouldApply transaction config
  | Greedy => GreedyChangeStrategy.shouldApply transaction config
  end.

Definition calculateChange (s : Strategy) (transaction : Transaction)
  (currency : Currency) (g : MathRandom)
  : ChangeResult * Strategy * MathRandom :=
  match s with
  | Random self =>
      let '(result, self', g') :=
        RandomChangeStrategy.calculateChange self transaction currency g in
      (result, Random self', g')
  | Greedy =>
      (GreedyChangeStrategy.calculateChange transaction currency, Greedy, g)
  end.

Definition isRandom (s : Strategy) : bool :=
  match s with
  | Random _ => true
  | Greedy => false
  end.

End ChangeStrategy.

Module ChangeStrategyFactory.

Record t : Type := { strategies : list Strategy }.

Definition new (g : MathRandom) : t * MathRandom :=
  let (random, g1) := RandomChangeStrategy.new None g in
  ({| strategies := [Random random; Greedy] |}, g1).

(** What [getStrategy] hands back: the object registered at a position of
    the list, or the fresh [GreedyChangeStrategy] of the last line. *)
Inductive Ref : Type :=
| Registered (position : nat)
| Default.

(** The loop of [getStrategy], [position] counting the strategies passed. *)
Fixpoint firstApplicable (l : list Strategy) (position : nat)
  (transaction : Transaction) (config : option SpecialRuleConfig)
  : option nat :=
  match l with
  | [] => None
  | s :: rest =>
      if ChangeStrategy.shouldApply s transaction config then Some position
      else firstApplicable rest (S position) transaction config
  end.

Definition getStrategy (self : t) (transaction : Transaction)
  (config : option SpecialRuleConfig) : Ref :=
  match firstApplicable (strategies self) 0 transaction config with
  | Some position => Registered position
  | None => Default
  end.

(** The object behind a reference, and the factory once that object has
    changed state. *)
Definition deref (self : t) (r : Ref) : Strategy :=
  match r with
  | Registered position => nth position (strategies self) Greedy
  | Default => Greedy
  end.

Fixpoint replaceAt (position : nat) (s : Strategy) (l : list Strategy)
  : list Strategy :=
  match l, position with
  | [], _ => []
  | _ :: rest, O => s :: rest
  | x :: rest, S k => x :: replaceAt k s rest
  end.

Definition store (self : t) (r : Ref) (s : Strategy) : t :=
  match r with
  | Registered position =>
      {| strategies := replaceAt position s (strategies self) |}
  | Default => self
  end.

Definition addStrategy (s : Strategy) (self : t) : t :=
  {| strategies := s :: strategies self |}.

End ChangeStrategyFactory.

(** ** Calculator *)

Module ChangeCalculator.

Record t : Type := {
  currency : Currency;
  specialRuleConfig : SpecialRuleConfig;
  strategyFactory : ChangeStrategyFactory.t
}.

Definition new (cur : Currency) (config : SpecialRuleConfig)
  (factory : option ChangeStrategyFactory.t) (g : MathRandom)
  : t * MathRandom :=
  match factory with
  | Some f =>
      ({| currency := cur; specialRuleConfig := config;
          strategyFactory := f |}, g)
  | None =>
      let (f, g1) := ChangeStrategyFactory.new g in
      ({| currency := cur; specialRuleConfig := config;
          strategyFactory := f |}, g1)
  end.

(** [validateAmounts] throws or returns; the thrown error is [Some]. *)
Definition validateAmounts (amountOwed amountPaid : Z)
  : option CashRegisterError :=
  if amountOwed <? 0 then Some (InvalidAmountError amountOwed)
  else if amountPaid <? 0 then Some (InvalidAmountError amountPaid)
  else if amountPaid <? amountOwed
       then Some (InsufficientPaymentError amountOwed amountPaid)
       else None.

(** A call either throws ([inl]) or returns ([inr]); in both cases the
    calculator and [Math.random] are given back as the call left them. *)
Definition calculateChange (self : t) (amountOwedInCents : Z)
  (amountPaidInCents : Z) (g : MathRandom)
  : (CashRegisterError + ChangeResult) * t * MathRandom :=
  match validateAmounts amountOwedInCents amountPaidInCents with
  | Some e => (inl e, self, g)
  | None =>
      let change := amountPaidInCents - amountOwedInCents in
      if change =? 0 then
        (inr {| totalChangeInCents := 0;
                resultDenominations := JSMap.empty;
                formattedOutput := "" |}, self, g)
      else
        let transaction :=
          {| amountOwedInCents := amountOwedInCents;
             amountPaidInCents := amountPaidInCents;
             changeInCents := change |} in
        let factory := strategyFactory self in
        let r :=
          ChangeStrategyFactory.getStrategy factory transaction
            (Some (specialRuleConfig self)) in
        let '(result, s', g') :=
          ChangeStrategy.calculateChange
            (ChangeStrategyFactory.deref factory r) transaction
            (currency self) g in
        (inr result,
         {| currency := currency self;
            specialRuleConfig := specialRuleConfig self;
            strategyFactory := ChangeStrategyFactory.store factory r s' |},
         g')
  end.

(** [Math.round(amount * 100)] *)
Definition toCents (amount : float) : Z :=
  Math.round (amount * 100)%float.

(** [transactions.map(...)]: the pairs are processed in order, and the
    first call that throws ends the batch. *)
Fixpoint processTransactions (self : t) (transactions : list (float * float))
  (g : MathRandom) : (CashRegisterError + list string) * t * MathRandom :=
  match transactions with
  | [] => (inr [], self, g)
  | (amountOwed, amountPaid) :: rest =>
      match calculateChange self (toCents amountOwed) (toCents amountPaid) g
      with
      | (inl e, self1, g1) => (inl e, self1, g1)
      | (inr result, self1, g1) =>
          match processTransactions self1 rest g1 with
          | (inl e, self2, g2) => (inl e, self2, g2)
          | (inr outputs, self2, g2) =>
              (inr (formattedOutput result :: outputs), self2, g2)
          end
      end
  end.

End ChangeCalculator.

(** ** Currency registry *)

(** [src/config/currencies.ts] *)
Definition EUR_DENOMINATIONS : list Denomination :=
  [ {| name := "euro"; valueInCents := 100 |};
    {| name := "50-cent"; valueInCents := 50 |};
    {| name := "20-cent"; valueInCents := 20 |};
    {| name := "10-cent"; valueInCents := 10 |};
    {| name := "5-cent"; valueInCents := 5 |};
    {| name := "2-cent"; valueInCents := 2 |};
    {| name := "1-cent"; valueInCents := 1 |} ].

Definition EUR_CURRENCY : Currency :=
  {| code := "EUR"; denominations := EUR_DENOMINATIONS |}.

(** The own properties of the registry object, in declaration order. *)
Definition CURRENCY_REGISTRY : list (string * Currency) :=
  [ ("USD"%string, US_CURRENCY); ("EUR"%string, EUR_CURRENCY) ].

(** The registry is an object literal, so a property that is not its own is
    looked up in [Object.prototype].  These are the names found there; the
    value under each of them is a function, and under [__proto__] the
    prototype object itself: all of them truthy, none of them a currency. *)
Definition OBJECT_PROTOTYPE_NAMES : list string :=
  [ "constructor"; "__defineGetter__"; "__defineSetter__"; "hasOwnProperty";
    "__lookupGetter__"; "__lookupSetter__"; "isPrototypeOf";
    "propertyIsEnumerable"; "toString"; "valueOf"; "__proto__";
    "toLocaleString" ]%string.

(** What [CURRENCY_REGISTRY[code]] evaluates to when it is not
    [undefined]. *)
Inductive RegistryValue : Type :=
| RegisteredCurrency (currency : Currency)
| InheritedMember (memberName : string).

(** [CURRENCY_REGISTRY[code]]: an own property first, then the prototype;
    [None] is [undefined]. *)
Definition registryLookup (c : string) : option RegistryValue :=
  match JSMap.get c CURRENCY_REGISTRY with
  | Some currency => Some (RegisteredCurrency currency)
  | None =>
      if existsb (String.eqb c) OBJECT_PROTOTYPE_NAMES
      then Some (InheritedMember c)
      else None
  end.

(** [getCurrencyByCode]: the value found, or the message of the error
    thrown when nothing is found.  The function is typed for the two
    registered codes; its callers cast arbitrary strings to that type, so
    the model takes any string. *)
Definition getCurrencyByCode (c : string) : string + RegistryValue :=
  match registryLookup c with
  | Some found => inr found
  | None => inl ("Unsupported currency code: " ++ c)%string
  end.

Definition getAvailableCurrencyCodes : list string :=
  JSMap.keys CURRENCY_REGISTRY.

(** ** Errors and their HTTP rendering *)

(** The [code] and the [message] that the constructors of the two error
    classes pass to [CashRegisterError] ([src/domain/Currency.ts]). *)
Definition errorCode (e : CashRegisterError) : string :=
  match e with
  | InvalidAmountError _ => "INVALID_AMOUNT"
  | InsufficientPaymentError _ _ => "INSUFFICIENT_PAYMENT"
  end.

Definition errorMessage (e : CashRegisterError) : string :=
  match e with
  | InvalidAmountError amount =>
      ("Invalid amount: " ++ numberToString amount
       ++ ". Amount must be positive.")%string
  | InsufficientPaymentError amountOwed amountPaid =>
      ("Insufficient payment: owed " ++ numberToString amountOwed
       ++ " cents, paid " ++ numberToString amountPaid ++ " cents")%string
  end.

(** [src/api/middleware/ErrorHandler.ts] *)
Module ErrorHandler.

Definition getStatusCodeForCashRegisterError (c : string) : Z :=
  if (String.eqb c "INSUFFICIENT_PAYMENT" || String.eqb c "INVALID_AMOUNT")%bool
  then 422
  else if (String.eqb c "FILE_NOT_FOUND" || String.eqb c "CURRENCY_NOT_FOUND")%bool
  then 404
  else if (String.eqb c "INVALID_ARGUMENTS" || String.eqb c "CSV_PARSING_ERROR")%bool
  then 400
  else 500.

(** What [handleError] answers for a [CashRegisterError]: the status, and
    the [error] and [code] fields of the body.  (The [details] field is
    left out: the two error classes of the calculator define none of the
    properties it collects.) *)
Definition handleError (e : CashRegisterError) : Z * string * string :=
  (getStatusCodeForCashRegisterError (errorCode e), errorMessage e,
   errorCode e).

End ErrorHandler.

(** ** The batch endpoint of the Express application *)

(** [src/api/controllers/ChangeCalculatorController.ts] *)
Module ChangeCalculatorController.

(** The body of the request once destructured: [transactions] is [None]
    when it is not an array, the two other fields when they are absent. *)
Record BatchChangeRequest : Type := {
  transactions : option (list (float * float));
  currency : option string;
  specialRule : option SpecialRuleConfig
}.

Record Summary : Type := {
  totalTransactions : Z;
  summaryTotalChangeInCents : Z;
  summaryCurrency : string
}.

(** How the handler ends: [res.status(400).json(...)] with its [error] and
    [code], [res.json({ results, summary })], or [next(error)], the error
    being one of the domain or the [TypeError] of the runtime. *)
Inductive Outcome : Type :=
| BadRequest (error code : string)
| Responded (results : list ChangeResult) (summary : Summary)
| Forwarded (error : CashRegisterError)
| ForwardedTypeError.

(** [transactions.map(...)] on the calculator of the request: the first
    call that throws ends the loop. *)
Fixpoint calculateEach (calculator : ChangeCalculator.t)
  (pairs : list (float * float)) (g : MathRandom)
  : (CashRegisterError + list ChangeResult) * ChangeCalculator.t * MathRandom :=
  match pairs with
  | [] => (inr [], calculator, g)
  | (amountOwed, amountPaid) :: rest =>
      match ChangeCalculator.calculateChange calculator
              (Math.round (amountOwed * 100)%float)
              (Math.round (amountPaid * 100)%float) g with
      | (inl e, calculator1, g1) => (inl e, calculator1, g1)
      | (inr result, calculator1, g1) =>
          match calculateEach calculator1 rest g1 with
          | (inl e, calculator2, g2) => (inl e, calculator2, g2)
          | (inr results, calculator2, g2) =>
              (inr (result :: results), calculator2, g2)
          end
      end
  end.

(** The same loop on a calculator built around a value that is no
    currency.  Validation and the answer to an exact payment do not read
    the currency.  Any other pair reaches a strategy of the fresh factory,
    whose cache is empty, and both strategies begin by spreading
    [currency.denominations], which is [undefined] on such a value: a
    [TypeError], here [inl None], thrown before anything is drawn. *)
Fixpoint calculateEachInherited (pairs : list (float * float))
  : option CashRegisterError + list ChangeResult :=
  match pairs with
  | [] => inr []
  | (amountOwed, amountPaid) :: rest =>
      let amountOwedInCents := Math.round (amountOwed * 100)%float in
      let amountPaidInCents := Math.round (amountPaid * 100)%float in
      match ChangeCalculator.validateAmounts amountOwedInCents
              amountPaidInCents with
      | Some e => inl (Some e)
      | None =>
          if amountPaidInCents - amountOwedInCents =? 0 then
            match calculateEachInherited rest with
            | inl e => inl e
            | inr results =>
                inr ({| totalChangeInCents := 0;
                        resultDenominations := JSMap.empty;
                        formattedOutput := "" |} :: results)
            end
          else inl None
      end
  end.

Definition calculateBatchChange (body : BatchChangeRequest) (g : MathRandom)
  : Outcome * MathRandom :=
  match transactions body with
  | None | Some [] =>
      (BadRequest "Transactions array is required and must not be empty"
         "INVALID_TRANSACTIONS", g)
  | Some pairs =>
      let currency :=
        match currency body with
        | Some c => c
        | None => "USD"%string
        end in
      match registryLookup currency with
      | None =>
          (BadRequest ("Unsupported currency: " ++ currency) "INVALID_CURRENCY",
           g)
      | Some (InheritedMember _) =>
          match calculateEachInherited pairs with
          | inl (Some e) => (Forwarded e, g)
          | inl None => (ForwardedTypeError, g)
          | inr results =>
              (Responded results
                 {| totalTransactions := Z.of_nat (List.length pairs);
                    summaryTotalChangeInCents :=
                      fold_left (fun sum result =>
                                   sum + totalChangeInCents result)
                        results 0;
                    summaryCurrency := currency |}, g)
          end
      | Some (RegisteredCurrency currencyConfig) =>
          let ruleConfig :=
            match specialRule body with
            | Some rule => rule
            | None =>
                {| divisor := 3;
                   description :=
                     "Use random denominations when change is divisible by 3" |}
            end in
          let (calculator, g0) :=
            ChangeCalculator.new currencyConfig ruleConfig None g in
          match calculateEach calculator pairs g0 with
          | (inl e, _, g1) => (Forwarded e, g1)
          | (inr results, _, g1) =>
              (Responded results
                 {| totalTransactions := Z.of_nat (List.length pairs);
                    summaryTotalChangeInCents :=
                      fold_left (fun sum result =>
                                   sum + totalChangeInCents result)
                        results 0;
                    summaryCurrency := currency |}, g1)
          end
      end
  end.

End ChangeCalculatorController.

(** ** Definitions used to state the properties *)

(** [sum(count_i * value_i)] over a mapping, every name being looked up in
    the table of the currency; [None] when a name is not in the table. *)
Fixpoint denominationTotal (currency : Currency) (m : JSMap.t Z)
  : option Z :=
  match m with
  | [] => Some 0
  | (n, count) :: rest =>
      match findDenomination currency n, denominationTotal currency rest with
      | Some d, Some total => Some (count * valueInCents d + total)
      | _, _ => None
      end
  end.

Definition positiveCounts (m : JSMap.t Z) : Prop :=
  Forall (fun entry => 0 < snd entry) m.

(** The constraints of the data model on a currency (positive values,
    unique names) and the presence of a unit denomination. *)
Record wellFormed (currency : Currency) : Prop := {
  wf_positive :
    Forall (fun d => 0 < valueInCents d) (denominations currency);
  wf_unique : NoDup (map name (denominations currency));
  wf_unit : exists d, In d (denominations currency) /\ valueInCents d = 1
}.

Definition mkTransaction (owed paid : Z) : Transaction :=
  {| amountOwedInCents := owed; amountPaidInCents := paid;
     changeInCents := paid - owed |}.

(** The entries a formatted text lists: those with a positive count. *)
Definition listed (m : JSMap.t Z) : JSMap.t Z :=
  filter (fun entry => 0 <? snd entry) m.

(** The rendering of one entry as the code does it: the name stands as it
    is for a count of 1 and is pluralized otherwise. *)
Definition renderEntry (entry : string * Z) : string :=
  let (n, count) := entry in
  let shown :=
    if count =? 1 then n
    else if String.eqb n "penny" then "pennies"%string
         else (n ++ "s")%string in
  (numberToString count ++ " " ++ shown)%string.

(** Rounding to the nearest integer with ties away from zero, the rule the
    specification gives for the conversion to cents. *)
Definition roundHalfAwayFromZero (q : Q) : Z :=
  if Qle_bool 0 q then Qfloor (q + (1 # 2)) else Qceiling (q - (1 # 2)).

(** The error thrown for the first pair of a batch that fails validation. *)
Fixpoint firstInvalid (transactions : list (float * float))
  : option CashRegisterError :=
  match transactions with
  | [] => None
  | (amountOwed, amountPaid) :: rest =>
      match ChangeCalculator.validateAmounts
              (ChangeCalculator.toCents amountOwed)
              (ChangeCalculator.toCents amountPaid) with
      | Some e => Some e
      | None => firstInvalid rest
      end
  end.

Definition defaultRule : SpecialRuleConfig :=
  {| divisor := 3;
     description := "Use random denominations when change is divisible by 3" |}.

(** A run of calls on one instance of the randomized strategy, one call
    per change, all for the same currency. *)
Fixpoint calculateAll (self : RandomChangeStrategy.t) (changes : list Z)
  (currency : Currency) (g : MathRandom)
  : list ChangeResult * RandomChangeStrategy.t * MathRandom :=
  match changes with
  | [] => ([], self, g)
  | change :: rest =>
      let '(result, self1, g1) :=
        RandomChangeStrategy.calculateChange self (mkTransaction 0 change)
          currency g in
      let '(results, self2, g2) := calculateAll self1 rest currency g1 in
      (result :: results, self2, g2)
  end.

(** The states an instance of the randomized strategy goes through: it is
    constructed, and then receives calls of [calculateChange] and
    [clearCache], under any behaviour of [Math.random]. *)
Inductive instanceReachable : RandomChangeStrategy.t -> Prop :=
| reach_new (seed : option Z) (g : MathRandom) :
    instanceReachable (fst (RandomChangeStrategy.new seed g))
| reach_calculateChange (self : RandomChangeStrategy.t)
    (transaction : Transaction) (currency : Currency) (g : MathRandom) :
    instanceReachable self ->
    instanceReachable
      (snd (fst (RandomChangeStrategy.calculateChange self transaction
                   currency g)))
| reach_clearCache (self : RandomChangeStrategy.t) :
    instanceReachable self ->
    instanceReachable (RandomChangeStrategy.clearCache self).

(** The states of a calculator built with its own factory for a currency
    and a rule, after any sequence of [calculateChange] calls. *)
Inductive calculatorReachable (cur : Currency) (config : SpecialRuleConfig)
  : ChangeCalculator.t -> Prop :=
| reach_fresh (g : MathRandom) :
    calculatorReachable cur config
      (fst (ChangeCalculator.new cur config None g))
| reach_call (self : ChangeCalculator.t) (owed paid : Z) (g : MathRandom) :
    calculatorReachable cur config self ->
    calculatorReachable cur config
      (snd (fst (ChangeCalculator.calculateChange self owed paid g))).

(** What the cache of a calculator for [currency] holds: under the key of
    a change, a mapping with positive counts that sums to that change. *)
Definition validFor (currency : Currency) (m : JSMap.t Z) (change : Z)
  : Prop :=
  denominationTotal currency m = Some change /\ positiveCounts m.

Definition cacheValid (currency : Currency) (c : JSMap.t (JSMap.t Z))
  : Prop :=
  Forall (fun entry =>
            forall change,
              fst entry = RandomChangeStrategy.cacheKey change currency ->
              validFor currency (snd entry) change) c.

(** Test data: a generator that always draws 0, the multiples of 3 up to
    3003 other than 75, and a table with the code of the US one but other
    denominations. *)
Definition zeroRandom : MathRandom := NativeRandom (fun _ => 0%float) 0.

Definition otherChanges : list Z :=
  filter (fun c => negb (c =? 75))
    (map (fun n => 3 * Z.of_nat n) (seq 1 1001)).

Definition OTHER_USD : Currency :=
  {| code := "USD";
     denominations := [ {| name := "cent"; valueInCents := 1 |} ] |}.

(** What every reachable cache satisfies: at most [maxCacheSize] entries,
    and no empty key, so that the truthiness test of [cacheResult] never
    spares the first key. *)
Definition cacheBounded (c : JSMap.t (JSMap.t Z)) : Prop :=
  JSMap.size c <= RandomChangeStrategy.maxCacheSize /\
  Forall (fun entry => truthy (fst entry) = true) c.

(** What holds of every reachable calculator for [cur] and [config]: it
    keeps its currency, its rule and the two default strategies, and the
    cache of the randomized one holds valid mappings only. *)
Definition calculatorInvariant (cur : Currency) (config : SpecialRuleConfig)
  (self : ChangeCalculator.t) : Prop :=
  ChangeCalculator.currency self = cur /\
  ChangeCalculator.specialRuleConfig self = config /\
  exists random,
    ChangeStrategyFactory.strategies (ChangeCalculator.strategyFactory self)
    = [Random random; Greedy] /\
    cacheValid cur (RandomChangeStrategy.cache random).

(** A heuristic whose candidates hold positive counts only. *)
Definition producesPositive (h : RandomChangeStrategy.Heuristic) : Prop :=
  forall change sorted g, positiveCounts (fst (h change sorted g)).

(** The candidates the search examines when none of them is accepted:
    [attempts] successive candidates of each heuristic, heuristic after
    heuristic, every one drawn from [Math.random] as the previous one
    left it. *)
Fixpoint drawCandidates (h : RandomChangeStrategy.Heuristic)
  (attempts : nat) (change : Z) (sorted : list Denomination)
  (g : MathRandom) : list (JSMap.t Z) * MathRandom :=
  match attempts with
  | O => ([], g)
  | S k =>
      let (candidate, g1) := h change sorted g in
      let (others, g2) := drawCandidates h k change sorted g1 in
      (candidate :: others, g2)
  end.

Fixpoint drawAll (hs : list RandomChangeStrategy.Heuristic)
  (attempts : nat) (change : Z) (sorted : list Denomination)
  (g : MathRandom) : list (JSMap.t Z) * MathRandom :=
  match hs with
  | [] => ([], g)
  | h :: rest =>
      let (candidates, g1) := drawCandidates h attempts change sorted g in
      let (others, g2) := drawAll rest attempts change sorted g1 in
      (candidates ++ others, g2)
  end.

Definition searchCandidates (change : Z) (currency : Currency)
  (g : MathRandom) : list (JSMap.t Z) :=
  fst (drawAll RandomChangeStrategy.strategies
         RandomChangeStrategy.attemptsPerStrategy change
         (sortDescending (denominations currency)) g).

(** The number of coins and bills a mapping hands out. *)
Definition coinCount (m : JSMap.t Z) : Z :=
  fold_right (fun entry total => snd entry + total) 0 m.

(** The amount that [counts], given in the order of the table, add up to,
    and the number of pieces they use. *)
Fixpoint combinationValue (table : list Denomination) (counts : list Z)
  : Z :=
  match table, counts with
  | d :: table', count :: counts' =>
      count * valueInCents d + combinationValue table' counts'
  | _, _ => 0
  end.

Definition pieces (counts : list Z) : Z := fold_right Z.add 0 counts.

(** The number of pieces the largest-first filling uses for [remaining],
    the values being taken in order. *)
Fixpoint greedyCount (values : list Z) (remaining : Z) : Z :=
  match values with
  | [] => 0
  | v :: rest => remaining / v + greedyCount rest (remaining mod v)
  end.

(** [Math.random] after [k] further draws. *)
Definition drawn (k : nat) (g : MathRandom) : MathRandom :=
  Nat.iter k (fun g' => snd (Math_random g')) g.

(** [g'] is [g] after at most [budget] draws. *)
Definition within (budget : nat) (g g' : MathRandom) : Prop :=
  exists k, (k <= budget)%nat /\ g' = drawn k g.

(** The reference of [getStrategy] once a strategy has been put in front
    of the list. *)
Definition shifted (r : ChangeStrategyFactory.Ref) : ChangeStrategyFactory.Ref :=
  match r with
  | ChangeStrategyFactory.Registered position =>
      ChangeStrategyFactory.Registered (S position)
  | ChangeStrategyFactory.Default => ChangeStrategyFactory.Default
  end.

(** The total change of a batch, in cents. *)
Definition batchChange (pairs : list (float * float)) : Z :=
  fold_right (fun pair total =>
                ChangeCalculator.toCents (snd pair)
                - ChangeCalculator.toCents (fst pair) + total) 0 pairs.

(** Test data: a table without a unit, and the US table listed from the
    smallest value up. *)
Definition NO_UNIT : Currency :=
  {| code := "XTS";
     denominations :=
       [ {| name := "five"; valueInCents := 5 |};
         {| name := "two"; valueInCents := 2 |} ] |}.

Definition US_ASCENDING : Currency :=
  {| code := "USD"; denominations := List.rev US_DENOMINATIONS |}.

(** A heuristic that makes at most [b] draws for a candidate over
    [sorted]. *)
Definition drawsAtMost (b : nat) (h : RandomChangeStrategy.Heuristic)
  (sorted : list Denomination) : Prop :=
  forall change g, within b g (snd (h change sorted g)).

(** A string without the character that separates the two parts of a cache
    key. *)
Fixpoint noDash (s : string) : Prop :=
  match s with
  | EmptyString => True
  | String c rest => c <> "-"%char /\ noDash rest
  end.

(** ** Properties *)

Ltac break_ltb :=
  repeat match goal with
  | |- context [?a <? ?b] => destruct (Z.ltb_spec a b)
  | |- context [?a =? ?b] => destruct (Z.eqb_spec a b)
  end.

(** *** Validation and the zero-change short cut *)

Lemma validateAmounts_None (owed paid : Z) :
  ChangeCalculator.validateAmounts owed paid = None <->
  0 <= owed /\ owed <= paid.
Proof.
  unfold ChangeCalculator.validateAmounts.
  break_ltb; split; intros; try discriminate; try lia; reflexivity.
Qed.

Lemma calculateChange_throws (self : ChangeCalculator.t) (owed paid : Z)
  (g : MathRandom) (e : CashRegisterError) :
  ChangeCalculator.validateAmounts owed paid = Some e ->
  ChangeCalculator.calculateChange self owed paid g = (inl e, self, g).
Proof.
  intros H. unfold ChangeCalculator.calculateChange. now rewrite H.
Qed.

Lemma calculateChange_returns (self : ChangeCalculator.t) (owed paid : Z)
  (g : MathRandom) :
  ChangeCalculator.validateAmounts owed paid = None ->
  exists r self' g',
    ChangeCalculator.calculateChange self owed paid g = (inr r, self', g').
Proof.
  intros H. unfold ChangeCalculator.calculateChange. rewrite H.
  destruct (paid - owed =? 0).
  - eauto.
  - destruct (ChangeStrategy.calculateChange _ _ _ _) as [[r s'] g'].
    eauto.
Qed.

(** C2: [calculateChange] throws [InvalidAmountError] exactly when one of
    the amounts is negative (the error carries the amount owed when that
    one is negative, the amount paid otherwise), throws
    [InsufficientPaymentError] exactly when both are non-negative and the
    payment is short, and returns a result on every other input; when it
    throws, the calculator with all its strategies and [Math.random] are
    left as they were. *)
Theorem calculateChange_validation (self : ChangeCalculator.t)
  (owed paid : Z) (g : MathRandom) :
  let out := ChangeCalculator.calculateChange self owed paid g in
  ((owed < 0 \/ paid < 0) <->
   exists a, fst (fst out) = inl (InvalidAmountError a)) /\
  (owed < 0 -> out = (inl (InvalidAmountError owed), self, g)) /\
  (0 <= owed -> paid < 0 -> out = (inl (InvalidAmountError paid), self, g)) /\
  ((0 <= owed /\ 0 <= paid /\ paid < owed) <->
   exists a b, fst (fst out) = inl (InsufficientPaymentError a b)) /\
  (0 <= owed -> 0 <= paid -> paid < owed ->
   out = (inl (InsufficientPaymentError owed paid), self, g)) /\
  (0 <= owed -> owed <= paid -> exists r, fst (fst out) = inr r) /\
  (forall e, fst (fst out) = inl e -> out = (inl e, self, g)).
Proof.
  intros out.
  destruct (ChangeCalculator.validateAmounts owed paid) as [e|] eqn:V.
  - pose proof (calculateChange_throws self owed paid g e V) as E.
    fold out in E. rewrite E. cbn [fst snd].
    unfold ChangeCalculator.validateAmounts in V.
    destruct (Z.ltb_spec owed 0); [|destruct (Z.ltb_spec paid 0);
      [|destruct (Z.ltb_spec paid owed); [|discriminate]]];
      injection V as <-;
      repeat split; intros; try lia; try congruence; eauto;
      repeat match goal with
      | H : exists _, _ |- _ => destruct H
      | H : _ /\ _ |- _ => destruct H
      | H : _ \/ _ |- _ => destruct H
      end; try discriminate; try lia.
  - pose proof (proj1 (validateAmounts_None owed paid) V) as [Ho Hp].
    destruct (calculateChange_returns self owed paid g V)
      as (r & self' & g' & E).
    fold out in E. rewrite E. cbn [fst snd].
    repeat split; intros; try lia; try discriminate; eauto;
      repeat match goal with
      | H : exists _, _ |- _ => destruct H
      | H : _ /\ _ |- _ => destruct H
      | H : _ \/ _ |- _ => destruct H
      end; try discriminate; try lia.
Qed.

Lemma calculateChange_validation_witness :
  ChangeCalculator.calculateChange
    (fst (ChangeCalculator.new US_CURRENCY
            {| divisor := 3; description := "" |} None (SeededRandom 1)))
    300 200 (SeededRandom 1)
  = (inl (InsufficientPaymentError 300 200),
     fst (ChangeCalculator.new US_CURRENCY
            {| divisor := 3; description := "" |} None (SeededRandom 1)),
     SeededRandom 1).
Proof.
  pose proof (calculateChange_validation
                (fst (ChangeCalculator.new US_CURRENCY
                        {| divisor := 3; description := "" |} None
                        (SeededRandom 1))) 300 200 (SeededRandom 1)) as H.
  cbv zeta in H. destruct H as (_ & _ & _ & _ & H & _).
  apply H; lia.
Defined.

(** C3: for every [n >= 0], whatever the currency, the rule configuration
    and the registered strategies, [calculateChange(n, n)] returns the
    result with total 0, the empty mapping and the empty text, and leaves
    the calculator, every strategy it holds (the cache of the randomized
    one included) and [Math.random] untouched. *)
Theorem calculateChange_exact_payment (self : ChangeCalculator.t) (n : Z)
  (g : MathRandom) :
  0 <= n ->
  ChangeCalculator.calculateChange self n n g =
  (inr {| totalChangeInCents := 0;
          resultDenominations := JSMap.empty;
          formattedOutput := "" |}, self, g).
Proof.
  intros Hn. unfold ChangeCalculator.calculateChange.
  assert (V : ChangeCalculator.validateAmounts n n = None)
    by (apply validateAmounts_None; lia).
  rewrite V, Z.sub_diag. reflexivity.
Qed.

Lemma calculateChange_exact_payment_witness :
  ChangeCalculator.calculateChange
    (fst (ChangeCalculator.new US_CURRENCY
            {| divisor := 3; description := "" |} None (SeededRandom 1)))
    100 100 (SeededRandom 1)
  = (inr {| totalChangeInCents := 0;
            resultDenominations := JSMap.empty;
            formattedOutput := "" |},
     fst (ChangeCalculator.new US_CURRENCY
            {| divisor := 3; description := "" |} None (SeededRandom 1)),
     SeededRandom 1).
Proof.
  apply (calculateChange_exact_payment
           (fst (ChangeCalculator.new US_CURRENCY
                   {| divisor := 3; description := "" |} None
                   (SeededRandom 1))) 100 (SeededRandom 1)); lia.
Defined.

(** *** Strategy selection *)

Lemma factory_new_strategies (g : MathRandom) :
  ChangeStrategyFactory.strategies (fst (ChangeStrategyFactory.new g)) =
  [Random (fst (RandomChangeStrategy.new None g)); Greedy].
Proof. reflexivity. Qed.

Lemma isZero_jsRem (c d : Z) :
  d <> 0 -> (isZero (jsRem c d) = true <-> c mod d = 0).
Proof.
  intros Hd. unfold jsRem.
  destruct (Z.eqb_spec d 0) as [|_]; [contradiction|].
  rewrite Z.mod_divide, <- Z.rem_divide by assumption.
  cbn. destruct (Z.rem c d); split; intros; congruence.
Qed.

Lemma shouldApply_complementary (transaction : Transaction)
  (config : option SpecialRuleConfig) :
  RandomChangeStrategy.shouldApply transaction config =
  negb (GreedyChangeStrategy.shouldApply transaction config).
Proof.
  destruct config; cbn; [now rewrite negb_involutive | reflexivity].
Qed.

(** C4: with the two default strategies registered (the randomized one
    first), [getStrategy] hands back the randomized strategy exactly when
    a configuration is supplied and the change is a multiple of its
    divisor, and the registered minimal-count strategy in every other
    case, in particular whenever no configuration is supplied; the two
    applicability predicates are complementary, so the default of the last
    line of [getStrategy] is never taken. *)
Theorem getStrategy_routing (factory : ChangeStrategyFactory.t)
  (random : RandomChangeStrategy.t) (transaction : Transaction)
  (config : option SpecialRuleConfig) :
  ChangeStrategyFactory.strategies factory = [Random random; Greedy] ->
  let chosen :=
    ChangeStrategyFactory.getStrategy factory transaction config in
  let strategy := ChangeStrategyFactory.deref factory chosen in
  (config = None ->
   chosen = ChangeStrategyFactory.Registered 1 /\ strategy = Greedy) /\
  (forall c, config = Some c -> divisor c <> 0 ->
     (chosen = ChangeStrategyFactory.Registered 0 /\ strategy = Random random
      <-> changeInCents transaction mod divisor c = 0) /\
     (chosen = ChangeStrategyFactory.Registered 1 /\ strategy = Greedy
      <-> changeInCents transaction mod divisor c <> 0)) /\
  (forall c, config = Some c -> divisor c = 0 ->
     chosen = ChangeStrategyFactory.Registered 1 /\ strategy = Greedy) /\
  chosen <> ChangeStrategyFactory.Default /\
  RandomChangeStrategy.shouldApply transaction config =
  negb (GreedyChangeStrategy.shouldApply transaction config).
Proof.
  intros Hs chosen strategy.
  unfold strategy, chosen, ChangeStrategyFactory.getStrategy,
    ChangeStrategyFactory.deref.
  rewrite Hs. cbn [ChangeStrategyFactory.firstApplicable
                     ChangeStrategy.shouldApply].
  rewrite shouldApply_complementary.
  destruct config as [c|]; cbn [GreedyChangeStrategy.shouldApply negb].
  - rewrite negb_involutive.
    destruct (isZero (jsRem (changeInCents transaction) (divisor c)))
      eqn:E; cbn [negb nth].
    + split; [discriminate|]. split; [|split; [|split]].
      * intros c0 [= <-] Hd.
        pose proof (proj1 (isZero_jsRem _ _ Hd) E) as M.
        split; split; intros H; auto.
        -- destruct H; discriminate.
        -- contradiction.
      * intros c0 [= <-] Hd. unfold jsRem in E. rewrite Hd in E.
        discriminate.
      * discriminate.
      * reflexivity.
    + split; [discriminate|]. split; [|split; [|split]].
      * intros c0 [= <-] Hd.
        assert (M : changeInCents transaction mod divisor c <> 0).
        { intros M. apply (isZero_jsRem _ _ Hd) in M. congruence. }
        split; split; intros H; auto.
        -- destruct H; discriminate.
        -- contradiction.
      * intros c0 [= <-] Hd. auto.
      * discriminate.
      * reflexivity.
  - cbn [negb nth].
    split; [auto|]. split; [discriminate|]. split; [discriminate|].
    split; [discriminate|reflexivity].
Qed.

Lemma getStrategy_routing_witness :
  ChangeStrategyFactory.getStrategy
    (fst (ChangeStrategyFactory.new (SeededRandom 1)))
    (mkTransaction 100 268) (Some {| divisor := 3; description := "" |})
  = ChangeStrategyFactory.Registered 0 /\
  ChangeStrategyFactory.getStrategy
    (fst (ChangeStrategyFactory.new (SeededRandom 1)))
    (mkTransaction 200 300) (Some {| divisor := 3; description := "" |})
  = ChangeStrategyFactory.Registered 1.
Proof.
  split.
  - pose proof (getStrategy_routing
                  (fst (ChangeStrategyFactory.new (SeededRandom 1)))
                  _ (mkTransaction 100 268)
                  (Some {| divisor := 3; description := "" |})
                  (factory_new_strategies (SeededRandom 1))) as H.
    cbv zeta in H. destruct H as (_ & H & _).
    destruct (H _ eq_refl) as [[_ H1] _]; [cbn; lia|].
    apply H1. reflexivity.
  - pose proof (getStrategy_routing
                  (fst (ChangeStrategyFactory.new (SeededRandom 1)))
                  _ (mkTransaction 200 300)
                  (Some {| divisor := 3; description := "" |})
                  (factory_new_strategies (SeededRandom 1))) as H.
    cbv zeta in H. destruct H as (_ & H & _).
    destruct (H _ eq_refl) as [_ [_ H1]]; [cbn; lia|].
    apply H1. cbn. lia.
Defined.

(** *** Formatting *)

Lemma pushPart_fold (m : JSMap.t Z) (parts : list string) :
  fold_left GreedyChangeStrategy.pushPart m parts =
  parts ++ map renderEntry (listed m).
Proof.
  revert parts. induction m as [|[n count] m IH]; intros parts.
  - cbn. now rewrite app_nil_r.
  - cbn [fold_left listed filter snd]. rewrite IH.
    unfold GreedyChangeStrategy.pushPart, GreedyChangeStrategy.pluralize.
    rewrite Z.gtb_ltb.
    destruct (0 <? count); [|reflexivity].
    cbn [map renderEntry]. now rewrite <- app_assoc.
Qed.

Lemma formatOutput_shared (m : JSMap.t Z) :
  RandomChangeStrategy.formatOutput m = GreedyChangeStrategy.formatOutput m.
Proof. reflexivity. Qed.

(** C9: both strategies format a mapping in the same way, as a list of
    entries joined by a comma without spaces, in the order of the mapping.
    Each entry is the count, a space and the name of the denomination; the
    name is pluralized by appending s (penny becoming pennies) and stands
    in the singular when the count is 1, as in "1 dime".  Entries with a
    zero count are omitted (the code lists the positive counts), and the
    empty mapping gives the empty string.  For the US table a change of 88
    is formatted as "3 quarters,1 dime,3 pennies". *)
Theorem formatOutput_rule (m : JSMap.t Z) :
  GreedyChangeStrategy.formatOutput m =
    String.concat "," (map renderEntry (listed m)) /\
  RandomChangeStrategy.formatOutput m = GreedyChangeStrategy.formatOutput m /\
  GreedyChangeStrategy.formatOutput JSMap.empty = ""%string /\
  formattedOutput
    (GreedyChangeStrategy.calculateChange (mkTransaction 212 300)
       US_CURRENCY) = "3 quarters,1 dime,3 pennies"%string.
Proof.
  split; [|split; [|split]].
  - unfold GreedyChangeStrategy.formatOutput. now rewrite pushPart_fold.
  - apply formatOutput_shared.
  - reflexivity.
  - reflexivity.
Qed.

(** *** Batch processing *)

Lemma round_nearest (x : float) :
  Math.round x = Qfloor (Math.value x + (1 # 2)).
Proof.
  unfold Math.round, Math.value.
  destruct (Prim2SF x) as [s|s| |s m e]; try reflexivity.
  set (v := if s then Z.neg m else Z.pos m).
  destruct (Z.leb_spec 0 e) as [He|He].
  - unfold Qfloor, Qplus, inject_Z. cbn [Qnum Qden].
    change (Z.pos (1 * 2)) with 2. change (1 * 1) with 1.
    generalize (v * 2 ^ e). intros n.
    apply Z.div_unique with (r := 1); lia.
  - assert (HP : 0 < 2 ^ (- e)) by (apply Z.pow_pos_nonneg; lia).
    unfold Qfloor, Qplus. cbn [Qnum Qden].
    rewrite Pos2Z.inj_mul, Z2Pos.id by assumption.
    f_equal; lia.
Qed.

Lemma round_half_up (x : float) :
  (inject_Z (Math.round x) - (1 # 2) <= Math.value x)%Q /\
  (Math.value x < inject_Z (Math.round x) + (1 # 2))%Q.
Proof.
  rewrite round_nearest.
  pose proof (Qfloor_le (Math.value x + (1 # 2))) as Hl.
  pose proof (Qlt_floor (Math.value x + (1 # 2))) as Hu.
  rewrite inject_Z_plus in Hu.
  revert Hl Hu.
  generalize (inject_Z (Qfloor (Math.value x + (1 # 2)))).
  generalize (Math.value x). intros v q Hl Hu. split.
  - apply Qplus_le_l with (z := (1 # 2)%Q).
    setoid_replace (q - (1 # 2) + (1 # 2))%Q with q by ring. exact Hl.
  - apply Qplus_lt_l with (z := (1 # 2)%Q).
    setoid_replace (q + (1 # 2) + (1 # 2))%Q with (q + inject_Z 1)%Q
      by (unfold inject_Z; ring).
    exact Hu.
Qed.

Lemma processTransactions_outcome (transactions : list (float * float)) :
  forall (self : ChangeCalculator.t) (g : MathRandom),
  match firstInvalid transactions with
  | Some e =>
      fst (fst (ChangeCalculator.processTransactions self transactions g))
      = inl e
  | None =>
      exists outputs,
        fst (fst (ChangeCalculator.processTransactions self transactions g))
        = inr outputs /\
        List.length outputs = List.length transactions
  end.
Proof.
  induction transactions as [|[o p] rest IH]; intros self g.
  - cbn. eauto.
  - cbn [firstInvalid ChangeCalculator.processTransactions].
    destruct (ChangeCalculator.validateAmounts _ _) as [e|] eqn:V.
    + now rewrite (calculateChange_throws _ _ _ _ _ V).
    + destruct (calculateChange_returns self _ _ g V)
        as (r & self1 & g1 & E).
      rewrite E. specialize (IH self1 g1).
      destruct (ChangeCalculator.processTransactions self1 rest g1)
        as [[[e|outs] self2] g2]; cbn [fst] in IH |- *.
      * destruct (firstInvalid rest); [assumption|].
        destruct IH as (outs & H & _). discriminate.
      * destruct (firstInvalid rest); [discriminate|].
        destruct IH as (outs' & [= <-] & L).
        exists (formattedOutput r :: outs). split; [reflexivity|].
        cbn. now rewrite L.
Qed.

Lemma processTransactions_nth (transactions : list (float * float)) :
  forall (self : ChangeCalculator.t) (g : MathRandom) (outputs : list string)
         (i : nat) (o p : float),
  fst (fst (ChangeCalculator.processTransactions self transactions g))
  = inr outputs ->
  nth_error transactions i = Some (o, p) ->
  exists before self_i g_i r self' g',
    ChangeCalculator.processTransactions self (firstn i transactions) g
    = (inr before, self_i, g_i) /\
    ChangeCalculator.calculateChange self_i (ChangeCalculator.toCents o)
      (ChangeCalculator.toCents p) g_i = (inr r, self', g') /\
    nth_error outputs i = Some (formattedOutput r).
Proof.
  induction transactions as [|[o0 p0] rest IH];
    intros self g outputs i o p Hrun Hi.
  - destruct i; discriminate.
  - cbn [ChangeCalculator.processTransactions] in Hrun.
    destruct (ChangeCalculator.calculateChange self _ _ g)
      as [[[e|r0] self1] g1] eqn:E; [discriminate|].
    destruct (ChangeCalculator.processTransactions self1 rest g1)
      as [[[e|outs] self2] g2] eqn:R; [discriminate|].
    cbn in Hrun. injection Hrun as <-.
    destruct i as [|i].
    + cbn in Hi. injection Hi as -> ->.
      cbn [firstn ChangeCalculator.processTransactions].
      exists [], self, g, r0, self1, g1. auto.
    + cbn in Hi. cbn [firstn ChangeCalculator.processTransactions].
      rewrite E.
      destruct (IH self1 g1 outs i o p) as
        (before & si & gi & r & s' & g' & H1 & H2 & H3);
        [now rewrite R | assumption |].
      rewrite H1.
      exists (formattedOutput r0 :: before), si, gi, r, s', g'. auto.
Qed.

(** C8 (as stated, refuted): [Math.round] sends a tie to the larger
    integer, not away from zero.  The amount -0.005 gives -0.5 once
    multiplied by 100 and is converted to 0 cents; rounding away from zero
    would give -1 cent, which validation rejects, yet the batch holding
    the pair (-0.005, 0) returns one empty line. *)
Lemma toCents_negative_tie_counterexample :
  ChangeCalculator.toCents (-0.005) = 0 /\
  roundHalfAwayFromZero (Math.value (-0.005 * 100)) = -1 /\
  ChangeCalculator.validateAmounts (-1) 0 = Some (InvalidAmountError (-1)) /\
  forall self g,
    ChangeCalculator.processTransactions self [((-0.005)%float, 0%float)] g
    = (inr [""%string], self, g).
Proof.
  split; [vm_compute; reflexivity|].
  split; [vm_compute; reflexivity|].
  split; [reflexivity|].
  intros self g. reflexivity.
Qed.

(** C8 (amended): [processTransactions] converts every amount to cents by
    rounding the product of the amount and 100 to the nearest integer, a
    tie going to the larger integer (which is the rounding away from zero
    on amounts that are not negative); the empty batch gives the empty
    list; if a pair fails validation the batch fails with the error of the
    first such pair and no list is returned; otherwise the list returned
    has the length of the batch and its i-th line is the formatted output
    of [calculateChange] on the i-th pair, computed in the state the
    preceding pairs have left. *)
Theorem processTransactions_batch (self : ChangeCalculator.t)
  (transactions : list (float * float)) (g : MathRandom) :
  (forall a : float,
     (inject_Z (ChangeCalculator.toCents a) - (1 # 2)
      <= Math.value (a * 100))%Q /\
     (Math.value (a * 100)
      < inject_Z (ChangeCalculator.toCents a) + (1 # 2))%Q) /\
  (forall a : float,
     (0 <= Math.value (a * 100))%Q ->
     ChangeCalculator.toCents a =
     roundHalfAwayFromZero (Math.value (a * 100))) /\
  ChangeCalculator.processTransactions self [] g = (inr [], self, g) /\
  match firstInvalid transactions with
  | Some e =>
      fst (fst (ChangeCalculator.processTransactions self transactions g))
      = inl e
  | None =>
      exists outputs,
        fst (fst (ChangeCalculator.processTransactions self transactions g))
        = inr outputs /\
        List.length outputs = List.length transactions /\
        forall (i : nat) (o p : float),
          nth_error transactions i = Some (o, p) ->
          exists before self_i g_i r self' g',
            ChangeCalculator.processTransactions self
              (firstn i transactions) g = (inr before, self_i, g_i) /\
            ChangeCalculator.calculateChange self_i
              (ChangeCalculator.toCents o) (ChangeCalculator.toCents p) g_i
            = (inr r, self', g') /\
            nth_error outputs i = Some (formattedOutput r)
  end.
Proof.
  split; [intros a; apply round_half_up|].
  split.
  { intros a Ha. unfold ChangeCalculator.toCents, roundHalfAwayFromZero.
    apply Qle_bool_iff in Ha. rewrite Ha. apply round_nearest. }
  split; [reflexivity|].
  pose proof (processTransactions_outcome transactions self g) as H.
  destruct (firstInvalid transactions); [assumption|].
  destruct H as (outputs & E & L).
  exists outputs. split; [assumption|]. split; [assumption|].
  intros i o p Hi.
  exact (processTransactions_nth transactions self g outputs i o p E Hi).
Qed.

Lemma processTransactions_batch_witness :
  exists outputs,
    fst (fst (ChangeCalculator.processTransactions
                (fst (ChangeCalculator.new US_CURRENCY defaultRule None
                        (SeededRandom 12345)))
                [(2.12, 3.00); (1.97, 2.00); (3.33, 5.00)]%float
                (SeededRandom 12345))) = inr outputs /\
    List.length outputs = 3%nat.
Proof.
  pose proof (processTransactions_batch
                (fst (ChangeCalculator.new US_CURRENCY defaultRule None
                        (SeededRandom 12345)))
                [(2.12, 3.00); (1.97, 2.00); (3.33, 5.00)]%float
                (SeededRandom 12345)) as H.
  destruct H as (_ & _ & _ & H).
  replace (firstInvalid [(2.12, 3.00); (1.97, 2.00); (3.33, 5.00)]%float)
    with (@None CashRegisterError) in H by (vm_compute; reflexivity).
  destruct H as (outputs & E & L & _).
  exists outputs. split; assumption.
Defined.

Example processTransactions_scenario :
  fst (fst (ChangeCalculator.processTransactions
              (fst (ChangeCalculator.new US_CURRENCY defaultRule None
                      (SeededRandom 12345)))
              [(2.12, 3.00); (1.97, 2.00); (3.33, 5.00)]%float
              (SeededRandom 12345)))
  = inr [ "3 quarters,1 dime,3 pennies";
          "3 pennies";
          "1 dollar,2 quarters,1 dime,1 nickel,2 pennies" ]%string.
Proof. vm_compute. reflexivity. Qed.

(** *** The insertion-ordered map *)

Section MapFacts.
Context {V : Type}.
Implicit Types (m : JSMap.t V) (k : string) (v : V).

Lemma get_set_same k v m : JSMap.get k (JSMap.set k v m) = Some v.
Proof.
  induction m as [|[k' v'] m IH]; cbn.
  - now rewrite String.eqb_refl.
  - destruct (String.eqb k k') eqn:E; cbn; rewrite E; auto.
Qed.

Lemma get_set_other k k' v m :
  k <> k' -> JSMap.get k (JSMap.set k' v m) = JSMap.get k m.
Proof.
  intros N. induction m as [|[k0 v0] m IH]; cbn.
  - apply String.eqb_neq in N. now rewrite N.
  - destruct (String.eqb k' k0) eqn:E; cbn.
    + apply String.eqb_eq in E. subst k0.
      apply String.eqb_neq in N. now rewrite N.
    + now rewrite IH.
Qed.

Lemma get_delete_other k k' m :
  k <> k' -> JSMap.get k (JSMap.delete k' m) = JSMap.get k m.
Proof.
  intros N. induction m as [|[k0 v0] m IH]; cbn; [reflexivity|].
  destruct (String.eqb k' k0) eqn:E; cbn.
  - apply String.eqb_eq in E. subst k0.
    apply String.eqb_neq in N. now rewrite N.
  - now rewrite IH.
Qed.

Lemma set_fresh k v m :
  JSMap.get k m = None -> JSMap.set k v m = m ++ [(k, v)].
Proof.
  induction m as [|[k' v'] m IH]; cbn; [reflexivity|].
  destruct (String.eqb k k'); [discriminate|].
  intros H. now rewrite IH.
Qed.

Lemma set_length k v m :
  (List.length (JSMap.set k v m) <= S (List.length m))%nat.
Proof.
  induction m as [|[k' v'] m IH]; cbn; [lia|].
  destruct (String.eqb k k'); cbn; lia.
Qed.

Lemma set_Forall (P : string * V -> Prop) k v m :
  Forall P m -> (forall k', String.eqb k k' = true -> P (k', v)) ->
  P (k, v) -> Forall P (JSMap.set k v m).
Proof.
  intros Hm Hk Hn. induction Hm as [|[k' v'] m Hx Hm IH]; cbn.
  - constructor; [assumption | constructor].
  - destruct (String.eqb k k') eqn:E; constructor; auto.
Qed.

Lemma delete_Forall (P : string * V -> Prop) k m :
  Forall P m -> Forall P (JSMap.delete k m).
Proof.
  intros Hm. induction Hm as [|[k' v'] m Hx Hm IH]; cbn.
  - constructor.
  - destruct (String.eqb k k'); [assumption | constructor; assumption].
Qed.

Lemma get_In k v m : JSMap.get k m = Some v -> In (k, v) m.
Proof.
  induction m as [|[k' v'] m IH]; cbn; [discriminate|].
  destruct (String.eqb k k') eqn:E.
  - intros [= ->]. apply String.eqb_eq in E. subst. now left.
  - intros H. right. auto.
Qed.

End MapFacts.

(** *** The cache of the randomized strategy *)

Lemma cacheKey_truthy (change : Z) (currency : Currency) :
  truthy (RandomChangeStrategy.cacheKey change currency) = true.
Proof.
  unfold RandomChangeStrategy.cacheKey.
  destruct (numberToString change); reflexivity.
Qed.

Lemma cacheKey_code (change : Z) (c1 c2 : Currency) :
  code c1 = code c2 ->
  RandomChangeStrategy.cacheKey change c1 =
  RandomChangeStrategy.cacheKey change c2.
Proof. unfold RandomChangeStrategy.cacheKey. now intros ->. Qed.

Lemma cacheResult_full (key : string) (result : JSMap.t Z)
  (c : JSMap.t (JSMap.t Z)) :
  cacheBounded c ->
  JSMap.size c = RandomChangeStrategy.maxCacheSize ->
  exists oldest rest,
    c = oldest :: rest /\
    RandomChangeStrategy.cacheResult key result c = JSMap.set key result rest.
Proof.
  intros [_ Ht] Hs. unfold RandomChangeStrategy.cacheResult.
  rewrite Hs, Z.leb_refl.
  destruct c as [|[k v] rest]; [discriminate|].
  exists (k, v), rest. split; [reflexivity|].
  cbn [JSMap.firstKey]. inversion Ht as [|? ? Hk _]; subst.
  cbn [fst] in Hk. rewrite Hk. cbn [JSMap.delete].
  now rewrite String.eqb_refl.
Qed.

Lemma cacheResult_bounded (key : string) (result : JSMap.t Z)
  (c : JSMap.t (JSMap.t Z)) :
  truthy key = true -> cacheBounded c ->
  cacheBounded (RandomChangeStrategy.cacheResult key result c).
Proof.
  intros Hk [Hs Ht].
  assert (Hset : forall c', Forall (fun entry => truthy (fst entry) = true) c'
            -> Forall (fun entry => truthy (fst entry) = true)
                 (JSMap.set key result c')).
  { intros c' H. apply set_Forall; auto.
    intros k' E. apply String.eqb_eq in E. now subst. }
  destruct (Z.eq_dec (JSMap.size c) RandomChangeStrategy.maxCacheSize)
    as [Hfull|Hroom].
  - destruct (cacheResult_full key result c (conj Hs Ht) Hfull)
      as (oldest & rest & -> & ->).
    split.
    + pose proof (set_length key result rest).
      unfold JSMap.size in *. cbn [List.length] in Hs. lia.
    + apply Hset. now inversion Ht.
  - unfold RandomChangeStrategy.cacheResult.
    destruct (Z.leb_spec RandomChangeStrategy.maxCacheSize (JSMap.size c));
      [lia|].
    split.
    + pose proof (set_length key result c).
      unfold JSMap.size in *. lia.
    + now apply Hset.
Qed.

Lemma calculateChange_cases (self : RandomChangeStrategy.t)
  (transaction : Transaction) (currency : Currency) (g : MathRandom) :
  let change := changeInCents transaction in
  let key := RandomChangeStrategy.cacheKey change currency in
  let out := RandomChangeStrategy.calculateChange self transaction currency g in
  (exists snapshot,
     JSMap.get key (RandomChangeStrategy.cache self) = Some snapshot /\
     out = ({| totalChangeInCents := change;
               resultDenominations := snapshot;
               formattedOutput := RandomChangeStrategy.formatOutput snapshot |},
            self, g)) \/
  (JSMap.get key (RandomChangeStrategy.cache self) = None /\
   exists g1,
     RandomChangeStrategy.generateOptimizedRandomCombination change currency g
     = (None, g1) /\
     out = (GreedyChangeStrategy.calculateChange transaction currency,
            self, g1)) \/
  (JSMap.get key (RandomChangeStrategy.cache self) = None /\
   exists best g1,
     RandomChangeStrategy.generateOptimizedRandomCombination change currency g
     = (Some best, g1) /\
     out = ({| totalChangeInCents := change;
               resultDenominations := best;
               formattedOutput := RandomChangeStrategy.formatOutput best |},
            {| RandomChangeStrategy.randomSeed :=
                 RandomChangeStrategy.randomSeed self;
               RandomChangeStrategy.cache :=
                 RandomChangeStrategy.cacheResult key best
                   (RandomChangeStrategy.cache self) |}, g1)).
Proof.
  intros change key out. unfold out, RandomChangeStrategy.calculateChange.
  fold change. fold key.
  destruct (JSMap.get key (RandomChangeStrategy.cache self)) as [snap|].
  - left. eauto.
  - right.
    destruct (RandomChangeStrategy.generateOptimizedRandomCombination
                change currency g) as [[best|] g1].
    + right. eauto.
    + left. eauto.
Qed.

Lemma reachable_bounded (self : RandomChangeStrategy.t) :
  instanceReachable self -> cacheBounded (RandomChangeStrategy.cache self).
Proof.
  induction 1 as [seed g | self transaction currency g _ IH | self _ IH].
  - split; [cbn; unfold RandomChangeStrategy.maxCacheSize; lia | constructor].
  - destruct (calculateChange_cases self transaction currency g)
      as [(snap & _ & ->) | [(_ & g1 & _ & ->) | (_ & b & g1 & _ & ->)]];
      cbn [fst snd RandomChangeStrategy.cache]; auto.
    apply cacheResult_bounded; [apply cacheKey_truthy | assumption].
  - split; [cbn; unfold RandomChangeStrategy.maxCacheSize; lia | constructor].
Qed.

Lemma calculateAll_reachable (changes : list Z) :
  forall (self : RandomChangeStrategy.t) (currency : Currency)
         (g : MathRandom),
  instanceReachable self ->
  instanceReachable (snd (fst (calculateAll self changes currency g))).
Proof.
  induction changes as [|change rest IH]; intros self currency g H.
  - assumption.
  - cbn [calculateAll].
    pose proof (reach_calculateChange self (mkTransaction 0 change)
                  currency g H) as H1.
    destruct (RandomChangeStrategy.calculateChange self
                (mkTransaction 0 change) currency g) as [[r self1] g1].
    cbn [fst snd] in H1.
    specialize (IH self1 currency g1 H1).
    destruct (calculateAll self1 rest currency g1) as [[rs self2] g2].
    assumption.
Qed.

Lemma get_None_keys {V : Type} (k : string) (m : JSMap.t V) :
  JSMap.get k m = None -> ~ In k (JSMap.keys m).
Proof.
  induction m as [|[k' v'] m IH]; cbn; intros G; [tauto|].
  destruct (String.eqb_spec k k') as [|N]; [discriminate|].
  intros [E|Hin]; [congruence | now apply IH].
Qed.

Lemma set_keys_NoDup {V : Type} (k : string) (v : V) (m : JSMap.t V) :
  NoDup (JSMap.keys m) -> NoDup (JSMap.keys (JSMap.set k v m)).
Proof.
  destruct (JSMap.get k m) as [v0|] eqn:G.
  - intros H. replace (JSMap.keys (JSMap.set k v m)) with (JSMap.keys m);
      [assumption|].
    clear H. induction m as [|[k' v'] m IH]; cbn in G |- *; [discriminate|].
    destruct (String.eqb k k'); cbn; [reflexivity|].
    f_equal. now apply IH.
  - intros H. rewrite (set_fresh _ _ _ G). unfold JSMap.keys.
    rewrite map_app. cbn.
    apply NoDup_app; [assumption | repeat constructor; auto |].
    intros x Hx [<-|[]]. now apply (get_None_keys k m G).
Qed.

Lemma delete_keys_incl {V : Type} (k x : string) (m : JSMap.t V) :
  In x (JSMap.keys (JSMap.delete k m)) -> In x (JSMap.keys m).
Proof.
  induction m as [|[k' v'] m IH]; cbn; [tauto|].
  destruct (String.eqb k k'); cbn; tauto.
Qed.

Lemma delete_keys_NoDup {V : Type} (k : string) (m : JSMap.t V) :
  NoDup (JSMap.keys m) -> NoDup (JSMap.keys (JSMap.delete k m)).
Proof.
  induction m as [|[k' v'] m IH]; cbn; intros H; [assumption|].
  inversion H as [|? ? Hx Hm]; subst.
  destruct (String.eqb k k'); [assumption|].
  cbn. constructor; [|now apply IH].
  intros Hin. apply Hx. now apply delete_keys_incl in Hin.
Qed.

(** The keys of a reachable cache are pairwise distinct, so that its size
    counts entries as the size of the JavaScript map does. *)
Lemma reachable_keys_unique (self : RandomChangeStrategy.t) :
  instanceReachable self ->
  NoDup (JSMap.keys (RandomChangeStrategy.cache self)).
Proof.
  induction 1 as [seed g | self transaction currency g _ IH | self _ IH].
  - constructor.
  - destruct (calculateChange_cases self transaction currency g)
      as [(snap & _ & ->) | [(_ & g1 & _ & ->) | (_ & b & g1 & _ & ->)]];
      cbn [fst snd RandomChangeStrategy.cache]; auto.
    unfold RandomChangeStrategy.cacheResult. apply set_keys_NoDup.
    destruct (_ <=? _); [|assumption].
    destruct (JSMap.firstKey _); [|assumption].
    destruct (truthy s); [|assumption].
    now apply delete_keys_NoDup.
  - constructor.
Qed.

(** *** The search and its budget *)

Lemma tryAttempts_None (h : RandomChangeStrategy.Heuristic)
  (attempts : nat) (change : Z) (sorted : list Denomination)
  (currency : Currency) :
  forall g : MathRandom,
  (fst (RandomChangeStrategy.tryAttempts h attempts change sorted currency g)
   = None <->
   Forall (fun c =>
             RandomChangeStrategy.isValidCombination c change currency
             = false)
     (fst (drawCandidates h attempts change sorted g))) /\
  (fst (RandomChangeStrategy.tryAttempts h attempts change sorted currency g)
   = None ->
   snd (RandomChangeStrategy.tryAttempts h attempts change sorted currency g)
   = snd (drawCandidates h attempts change sorted g)) /\
  List.length (fst (drawCandidates h attempts change sorted g)) = attempts.
Proof.
  induction attempts as [|k IH]; intros g;
    cbn [RandomChangeStrategy.tryAttempts drawCandidates].
  - cbn. repeat split; auto.
  - destruct (h change sorted g) as [c g1].
    destruct (IH g1) as (I1 & I2 & I3).
    destruct (drawCandidates h k change sorted g1) as [cs g2].
    cbn [fst snd List.length] in *.
    destruct (RandomChangeStrategy.isValidCombination c change currency)
      eqn:V; cbn [fst snd].
    + repeat split; try discriminate; [|lia].
      intros H. inversion H; congruence.
    + repeat split; [| |assumption|lia].
      * intros H. constructor; [assumption | now apply I1].
      * intros H. apply I1. now inversion H.
Qed.

Lemma tryStrategies_None (hs : list RandomChangeStrategy.Heuristic)
  (attempts : nat) (change : Z) (sorted : list Denomination)
  (currency : Currency) :
  forall g : MathRandom,
  (fst (RandomChangeStrategy.tryStrategies hs attempts change sorted
          currency g) = None <->
   Forall (fun c =>
             RandomChangeStrategy.isValidCombination c change currency
             = false)
     (fst (drawAll hs attempts change sorted g))) /\
  List.length (fst (drawAll hs attempts change sorted g))
  = (List.length hs * attempts)%nat.
Proof.
  induction hs as [|h hs IH]; intros g;
    cbn [RandomChangeStrategy.tryStrategies drawAll].
  - cbn. split; [split; auto | reflexivity].
  - destruct (tryAttempts_None h attempts change sorted currency g)
      as (A1 & A2 & A3).
    destruct (RandomChangeStrategy.tryAttempts h attempts change sorted
                currency g) as [[c|] g1];
      destruct (drawCandidates h attempts change sorted g) as [cs g1'];
      cbn [fst snd] in *.
    + destruct (IH g1') as [_ I2].
      destruct (drawAll hs attempts change sorted g1') as [cs' g2].
      cbn [fst snd List.length] in *. rewrite length_app. split; [|lia].
      split; [discriminate|].
      intros H. apply Forall_app in H. destruct H as [H _].
      apply A1 in H. discriminate.
    + rewrite <- (A2 eq_refl). destruct (IH g1) as [I1 I2].
      destruct (RandomChangeStrategy.tryStrategies hs attempts change
                  sorted currency g1) as [r g2].
      destruct (drawAll hs attempts change sorted g1) as [cs' g2'].
      cbn [fst snd List.length] in *. rewrite length_app. split; [|lia].
      split.
      * intros H. apply Forall_app. split; [now apply A1 | now apply I1].
      * intros H. apply Forall_app in H. now apply I1.
Qed.

Lemma search_fails_iff (change : Z) (currency : Currency) (g : MathRandom) :
  (fst (RandomChangeStrategy.generateOptimizedRandomCombination change
          currency g) = None <->
   Forall (fun c =>
             RandomChangeStrategy.isValidCombination c change currency
             = false)
     (searchCandidates change currency g)) /\
  List.length (searchCandidates change currency g) = (3 * 166)%nat.
Proof.
  apply (tryStrategies_None RandomChangeStrategy.strategies
           RandomChangeStrategy.attemptsPerStrategy).
Qed.

(** C6: on a call whose key is not in the cache, if none of the candidates
    of the search (166 attempts for each of the three heuristics, in
    their fixed order, 498 candidates in all) is valid, that is sums to
    the change, the call returns exactly the result of the minimal-count
    strategy for the same transaction and currency, and the instance, its
    cache included, is as it was: nothing is stored under the key. *)
Theorem fallback_is_greedy_and_not_cached (self : RandomChangeStrategy.t)
  (transaction : Transaction) (currency : Currency) (g : MathRandom) :
  let change := changeInCents transaction in
  let key := RandomChangeStrategy.cacheKey change currency in
  JSMap.get key (RandomChangeStrategy.cache self) = None ->
  Forall (fun c =>
            RandomChangeStrategy.isValidCombination c change currency
            = false)
    (searchCandidates change currency g) ->
  let out :=
    RandomChangeStrategy.calculateChange self transaction currency g in
  fst (fst out) = GreedyChangeStrategy.calculateChange transaction currency /\
  snd (fst out) = self /\
  JSMap.get key (RandomChangeStrategy.cache (snd (fst out))) = None /\
  RandomChangeStrategy.attemptsPerStrategy = 166%nat /\
  List.length (searchCandidates change currency g) = (3 * 166)%nat.
Proof.
  intros change key Hmiss Hnone out.
  destruct (search_fails_iff change currency g) as [Hiff Hlen].
  apply Hiff in Hnone.
  destruct (calculateChange_cases self transaction currency g)
    as [(snap & Hhit & _) | [(_ & g1 & _ & E) | (_ & b & g1 & Hb & _)]].
  - fold change in Hhit. fold key in Hhit. congruence.
  - unfold out. rewrite E. cbn [fst snd]. auto.
  - fold change in Hb. rewrite Hb in Hnone. discriminate.
Qed.

Lemma fallback_is_greedy_and_not_cached_witness :
  let self := fst (RandomChangeStrategy.new None zeroRandom) in
  let out :=
    RandomChangeStrategy.calculateChange self (mkTransaction 197 200)
      US_CURRENCY zeroRandom in
  resultDenominations (fst (fst out)) = [("penny"%string, 3)] /\
  snd (fst out) = self.
Proof.
  intros self out.
  destruct (fallback_is_greedy_and_not_cached self (mkTransaction 197 200)
              US_CURRENCY zeroRandom) as (H1 & H2 & _).
  - reflexivity.
  - apply (search_fails_iff 3 US_CURRENCY zeroRandom).
    vm_compute. reflexivity.
  - fold out in H1, H2. rewrite H1. split; [reflexivity | assumption].
Defined.

(** C5 (as stated, refuted): an entry does not stay in the cache for
    ever.  On an instance seeded with 12345 the change 75 is first
    answered with 2 quarters, 2 dimes and 1 nickel, which is cached; after
    successful calls for 1000 other changes the cache holds 1000 entries,
    the oldest under the key of the change 3, the entry of 75 has been
    evicted, and the same call is answered with 3 quarters. *)
Lemma cached_result_evicted_counterexample :
  let '(self0, g0) := RandomChangeStrategy.new (Some 12345) zeroRandom in
  let '(first, self1, g1) :=
    RandomChangeStrategy.calculateChange self0 (mkTransaction 0 75)
      US_CURRENCY g0 in
  let '(_, self2, g2) := calculateAll self1 otherChanges US_CURRENCY g1 in
  let '(again, _, _) :=
    RandomChangeStrategy.calculateChange self2 (mkTransaction 0 75)
      US_CURRENCY g2 in
  JSMap.get (RandomChangeStrategy.cacheKey 75 US_CURRENCY)
    (RandomChangeStrategy.cache self1)
  = Some [("quarter", 2); ("dime", 2); ("nickel", 1)]%string /\
  resultDenominations first
  = [("quarter", 2); ("dime", 2); ("nickel", 1)]%string /\
  JSMap.size (RandomChangeStrategy.cache self2) = 1000 /\
  JSMap.firstKey (RandomChangeStrategy.cache self2) = Some "3-USD"%string /\
  JSMap.get (RandomChangeStrategy.cacheKey 75 US_CURRENCY)
    (RandomChangeStrategy.cache self2) = None /\
  resultDenominations again = [("quarter"%string, 3)] /\
  resultDenominations again <> resultDenominations first.
Proof.
  vm_compute. repeat (split; [reflexivity|]). discriminate.
Qed.

(** C5 (amended): as long as a mapping is held in the cache under the key
    of a change and a currency code (it has been stored by a search that
    succeeded, and has been neither evicted nor cleared since), every call
    for that change and a currency of that code returns a result whose
    denominations are that mapping, formatted anew, whatever the draws of
    [Math.random] and whatever the denomination table of the currency
    passed; the call leaves the instance and [Math.random] untouched.  A
    call for another key keeps the entry unless the cache is full and the
    entry is its oldest one. *)
Theorem cached_result_replayed (self : RandomChangeStrategy.t)
  (change : Z) (currency : Currency) (snapshot : JSMap.t Z) :
  let key := RandomChangeStrategy.cacheKey change currency in
  JSMap.get key (RandomChangeStrategy.cache self) = Some snapshot ->
  (forall (transaction : Transaction) (currency' : Currency)
          (g : MathRandom),
     changeInCents transaction = change ->
     code currency' = code currency ->
     RandomChangeStrategy.calculateChange self transaction currency' g =
     ({| totalChangeInCents := change;
         resultDenominations := snapshot;
         formattedOutput := RandomChangeStrategy.formatOutput snapshot |},
      self, g)) /\
  (forall (transaction : Transaction) (currency' : Currency)
          (g : MathRandom),
     RandomChangeStrategy.cacheKey (changeInCents transaction) currency'
     <> key ->
     JSMap.size (RandomChangeStrategy.cache self)
     < RandomChangeStrategy.maxCacheSize \/
     JSMap.firstKey (RandomChangeStrategy.cache self) <> Some key ->
     JSMap.get key
       (RandomChangeStrategy.cache
          (snd (fst (RandomChangeStrategy.calculateChange self transaction
                       currency' g)))) = Some snapshot).
Proof.
  intros key Hhit. split.
  - intros transaction currency' g Hc Hcode.
    unfold RandomChangeStrategy.calculateChange.
    rewrite Hc, (cacheKey_code change currency' currency Hcode).
    fold key. now rewrite Hhit.
  - intros transaction currency' g Hkey Hroom.
    destruct (calculateChange_cases self transaction currency' g)
      as [(snap & _ & ->) | [(_ & g1 & _ & ->) | (_ & b & g1 & _ & ->)]];
      cbn [fst snd RandomChangeStrategy.cache]; try assumption.
    unfold RandomChangeStrategy.cacheResult.
    rewrite get_set_other by congruence.
    destruct (Z.leb_spec RandomChangeStrategy.maxCacheSize
                (JSMap.size (RandomChangeStrategy.cache self)));
      [|assumption].
    destruct Hroom as [Hroom|Hroom]; [lia|].
    destruct (JSMap.firstKey (RandomChangeStrategy.cache self))
      as [k|] eqn:Ek; [|assumption].
    destruct (truthy k); [|assumption].
    rewrite get_delete_other by congruence. assumption.
Qed.

Lemma cached_result_replayed_witness :
  let '(self0, g0) := RandomChangeStrategy.new (Some 12345) zeroRandom in
  let '(first, self1, g1) :=
    RandomChangeStrategy.calculateChange self0 (mkTransaction 0 75)
      US_CURRENCY g0 in
  RandomChangeStrategy.calculateChange self1 (mkTransaction 25 100)
    OTHER_USD zeroRandom
  = ({| totalChangeInCents := 75;
        resultDenominations := resultDenominations first;
        formattedOutput := "2 quarters,2 dimes,1 nickel" |},
     self1, zeroRandom).
Proof.
  cbv beta iota zeta delta [RandomChangeStrategy.new].
  destruct (RandomChangeStrategy.calculateChange _ (mkTransaction 0 75)
              US_CURRENCY (SeededRandom 12345)) as [[first self1] g1] eqn:E.
  assert (Hc : JSMap.get (RandomChangeStrategy.cacheKey 75 US_CURRENCY)
                 (RandomChangeStrategy.cache self1)
               = Some [("quarter", 2); ("dime", 2); ("nickel", 1)]%string
               /\ resultDenominations first
                  = [("quarter", 2); ("dime", 2); ("nickel", 1)]%string).
  { vm_compute in E. injection E as <- <- _. split; reflexivity. }
  destruct Hc as [Hc Hf]. rewrite Hf.
  apply (cached_result_replayed self1 75 US_CURRENCY _ Hc); reflexivity.
Defined.


(** C7: the cache of an instance never holds more than 1000 entries,
    whatever calls of [calculateChange] and [clearCache] the instance has
    received; when a result is stored while the cache is full, the entry
    inserted first leaves and the new one is placed last; a call answered
    from the cache leaves the instance as it was, so that eviction follows
    the order of insertion and not the order of access: even after a hit
    the next result stored evicts the entry inserted first. *)
Theorem cache_bounded_insertion_order (self : RandomChangeStrategy.t) :
  instanceReachable self ->
  RandomChangeStrategy.maxCacheSize = 1000 /\
  JSMap.size (RandomChangeStrategy.cache self)
  <= RandomChangeStrategy.maxCacheSize /\
  (forall (transaction : Transaction) (currency : Currency)
          (g g1 : MathRandom) (best : JSMap.t Z),
     let key :=
       RandomChangeStrategy.cacheKey (changeInCents transaction) currency in
     JSMap.size (RandomChangeStrategy.cache self)
     = RandomChangeStrategy.maxCacheSize ->
     JSMap.get key (RandomChangeStrategy.cache self) = None ->
     RandomChangeStrategy.generateOptimizedRandomCombination
       (changeInCents transaction) currency g = (Some best, g1) ->
     exists oldest rest,
       RandomChangeStrategy.cache self = oldest :: rest /\
       RandomChangeStrategy.cache
         (snd (fst (RandomChangeStrategy.calculateChange self transaction
                      currency g)))
       = rest ++ [(key, best)]) /\
  (forall (transaction : Transaction) (currency : Currency) (g : MathRandom),
     JSMap.get
       (RandomChangeStrategy.cacheKey (changeInCents transaction) currency)
       (RandomChangeStrategy.cache self) <> None ->
     snd (fst (RandomChangeStrategy.calculateChange self transaction
                 currency g)) = self).
Proof.
  intros Hreach. pose proof (reachable_bounded self Hreach) as Hb.
  split; [reflexivity|]. split; [apply Hb|]. split.
  - intros transaction currency g g1 best key Hfull Hmiss Hgen.
    destruct (cacheResult_full key best _ Hb Hfull)
      as (oldest & rest & Ec & Er).
    exists oldest, rest. split; [assumption|].
    unfold RandomChangeStrategy.calculateChange. fold key.
    rewrite Hmiss, Hgen. cbn [fst snd RandomChangeStrategy.cache].
    rewrite Er. apply set_fresh.
    rewrite Ec in Hmiss. destruct oldest as [k v]. cbn in Hmiss.
    destruct (String.eqb key k); [discriminate | assumption].
  - intros transaction currency g Hhit.
    unfold RandomChangeStrategy.calculateChange.
    destruct (JSMap.get _ (RandomChangeStrategy.cache self));
      [reflexivity | contradiction].
Qed.

(** An instance seeded with 12345 that has answered the 1000 changes of
    [otherChanges]: its cache is full, the entry of the change 3 is the
    oldest, the change 75 is not cached, and the search for it succeeds
    with 3 quarters. *)
Lemma full_cache_run :
  let run :=
    calculateAll (fst (RandomChangeStrategy.new (Some 12345) zeroRandom))
      otherChanges US_CURRENCY (SeededRandom 12345) in
  JSMap.size (RandomChangeStrategy.cache (snd (fst run)))
  = RandomChangeStrategy.maxCacheSize /\
  JSMap.firstKey (RandomChangeStrategy.cache (snd (fst run)))
  = Some "3-USD"%string /\
  JSMap.get
    (RandomChangeStrategy.cacheKey (changeInCents (mkTransaction 0 75))
       US_CURRENCY)
    (RandomChangeStrategy.cache (snd (fst run))) = None /\
  RandomChangeStrategy.generateOptimizedRandomCombination
    (changeInCents (mkTransaction 0 75)) US_CURRENCY (snd run)
  = (Some [("quarter"%string, 3)], SeededRandom 179209) /\
  JSMap.get
    (RandomChangeStrategy.cacheKey (changeInCents (mkTransaction 0 3))
       US_CURRENCY)
    (RandomChangeStrategy.cache (snd (fst run))) <> None.
Proof.
  vm_compute. repeat (split; [reflexivity|]). discriminate.
Qed.

Lemma cache_bounded_insertion_order_witness :
  let run :=
    calculateAll (fst (RandomChangeStrategy.new (Some 12345) zeroRandom))
      otherChanges US_CURRENCY (SeededRandom 12345) in
  let full := snd (fst run) in
  exists oldest rest,
    RandomChangeStrategy.cache full = oldest :: rest /\
    JSMap.size (RandomChangeStrategy.cache full)
    = RandomChangeStrategy.maxCacheSize /\
    fst oldest = "3-USD"%string /\
    snd (fst (RandomChangeStrategy.calculateChange full (mkTransaction 0 3)
                US_CURRENCY (snd run))) = full /\
    RandomChangeStrategy.cache
      (snd (fst (RandomChangeStrategy.calculateChange full
                   (mkTransaction 0 75) US_CURRENCY (snd run))))
    = rest ++ [("75-USD"%string, [("quarter"%string, 3)])].
Proof.
  cbv zeta.
  pose proof full_cache_run as Hrun. cbv zeta in Hrun.
  destruct Hrun as (Hsize & Hfirst & Hmiss & Hgen & Hhit).
  destruct (cache_bounded_insertion_order _
              (calculateAll_reachable otherChanges _ US_CURRENCY
                 (SeededRandom 12345) (reach_new (Some 12345) zeroRandom)))
    as (_ & _ & Hevict & Hkeep).
  destruct (Hevict (mkTransaction 0 75) US_CURRENCY _ _ _ Hsize Hmiss Hgen)
    as (oldest & rest & Ec & Ea).
  exists oldest, rest.
  split; [exact Ec|]. split; [exact Hsize|]. split.
  - rewrite Ec in Hfirst. destruct oldest as [k v].
    injection Hfirst as Hfirst. exact Hfirst.
  - split; [exact (Hkeep _ _ _ Hhit) | exact Ea].
Defined.

(** ** Correctness of the results *)

(** *** Cache keys *)

Lemma append_cancel_r (t s1 s2 : string) :
  (s1 ++ t)%string = (s2 ++ t)%string -> s1 = s2.
Proof.
  assert (L : forall a b, String.length (a ++ b) =
                          (String.length a + String.length b)%nat).
  { induction a; intros b; cbn; [reflexivity | now rewrite IHa]. }
  revert s2. induction s1 as [|c s1 IH]; intros [|c' s2] H; cbn in H.
  - reflexivity.
  - apply (f_equal String.length) in H. cbn in H. rewrite L in H. lia.
  - apply (f_equal String.length) in H. cbn in H. rewrite L in H. lia.
  - injection H as -> H. f_equal. now apply IH.
Qed.

Lemma numberToString_inj (a b : Z) :
  numberToString a = numberToString b -> a = b.
Proof.
  unfold numberToString. intros H.
  assert (N : forall z, Z.to_int z <> Pos Nil /\ Z.to_int z <> Neg Nil).
  { intros [|p|p]; cbn; split; try discriminate;
      intros [= E]; now apply (Unsigned.to_uint_nonnil p). }
  apply to_int_inj.
  apply (f_equal NilZero.int_of_string) in H.
  rewrite !NilZero.isi in H by apply N.
  now injection H.
Qed.

Lemma cacheKey_inj (a b : Z) (currency : Currency) :
  RandomChangeStrategy.cacheKey a currency =
  RandomChangeStrategy.cacheKey b currency -> a = b.
Proof.
  unfold RandomChangeStrategy.cacheKey. intros H.
  apply append_cancel_r in H. now apply numberToString_inj.
Qed.

(** *** Sorting *)

Lemma insertDescending_perm (d : Denomination) (l : list Denomination) :
  Permutation (insertDescending d l) (d :: l).
Proof.
  induction l as [|x l IH]; cbn; [reflexivity|].
  destruct (valueInCents x <=? valueInCents d); [reflexivity|].
  rewrite IH. apply perm_swap.
Qed.

Lemma sortDescending_perm (l : list Denomination) :
  Permutation (sortDescending l) l.
Proof.
  induction l as [|d l IH]; cbn; [reflexivity|].
  rewrite insertDescending_perm. now constructor.
Qed.

(** *** Sums over a mapping *)

Lemma findDenomination_unique (currency : Currency) (d : Denomination) :
  NoDup (map name (denominations currency)) ->
  In d (denominations currency) ->
  findDenomination currency (name d) = Some d.
Proof.
  unfold findDenomination.
  induction (denominations currency) as [|x l IH]; intros Hn Hin;
    [contradiction|].
  cbn in Hn |- *. inversion Hn as [|? ? Hx Hl]; subst.
  destruct (String.eqb_spec (name x) (name d)) as [E|E].
  - destruct Hin as [->|Hin]; [reflexivity|].
    exfalso. apply Hx. rewrite E. now apply in_map.
  - destruct Hin as [->|Hin]; [contradiction|]. auto.
Qed.

Lemma denominationTotal_app (currency : Currency) (m : JSMap.t Z)
  (d : Denomination) (n : string) (count total : Z) :
  denominationTotal currency m = Some total ->
  findDenomination currency n = Some d ->
  denominationTotal currency (m ++ [(n, count)])
  = Some (total + count * valueInCents d).
Proof.
  intros Hm Hd. revert total Hm.
  induction m as [|[n' c'] m IH]; intros total Hm; cbn in Hm |- *.
  - injection Hm as <-. rewrite Hd. f_equal. lia.
  - destruct (findDenomination currency n') as [d'|]; [|discriminate].
    destruct (denominationTotal currency m) as [t|]; [|discriminate].
    injection Hm as <-. rewrite (IH t eq_refl). f_equal. lia.
Qed.

Lemma sumsTo_total (currency : Currency) (m : JSMap.t Z) (acc target : Z) :
  RandomChangeStrategy.sumsTo currency m acc target = true ->
  denominationTotal currency m = Some (target - acc).
Proof.
  revert acc. induction m as [|[n c] m IH]; intros acc H; cbn in H |- *.
  - apply Z.eqb_eq in H. f_equal. lia.
  - destruct (findDenomination currency n) as [d|]; [|discriminate].
    rewrite (IH _ H). f_equal. lia.
Qed.

Lemma positiveCounts_set (n : string) (count : Z) (m : JSMap.t Z) :
  0 < count -> positiveCounts m -> positiveCounts (JSMap.set n count m).
Proof.
  intros Hc Hm. apply set_Forall; auto.
Qed.

(** *** The minimal-count strategy *)

Lemma fill_valid (currency : Currency) :
  NoDup (map name (denominations currency)) ->
  forall (sorted : list Denomination) (denoms : JSMap.t Z)
         (remaining total : Z),
  Forall (fun d => In d (denominations currency) /\ 0 < valueInCents d)
    sorted ->
  NoDup (map name sorted) ->
  Forall (fun d => JSMap.get (name d) denoms = None) sorted ->
  denominationTotal currency denoms = Some total ->
  positiveCounts denoms ->
  0 <= remaining ->
  exists total',
    denominationTotal currency
      (fst (GreedyChangeStrategy.fill sorted denoms remaining))
    = Some total' /\
    total' + snd (GreedyChangeStrategy.fill sorted denoms remaining)
    = total + remaining /\
    positiveCounts (fst (GreedyChangeStrategy.fill sorted denoms remaining)) /\
    0 <= snd (GreedyChangeStrategy.fill sorted denoms remaining) /\
    (remaining = 0 \/ Exists (fun d => valueInCents d = 1) sorted ->
     snd (GreedyChangeStrategy.fill sorted denoms remaining) = 0).
Proof.
  intros Hcur sorted.
  induction sorted as [|d rest IH];
    intros denoms remaining total Hs Hn Hfresh Ht Hp Hr.
  - cbn. exists total. repeat split; auto.
    intros [H|H]; [assumption | inversion H].
  - inversion Hs as [|? ? [Hin Hv] Hs']; subst.
    inversion Hn as [|? ? Hnd Hn']; subst.
    inversion Hfresh as [|? ? Hfd Hf']; subst.
    cbn [GreedyChangeStrategy.fill].
    destruct (Z.leb_spec (valueInCents d) remaining) as [Hle|Hgt].
    + set (count := remaining / valueInCents d).
      assert (Hc : 0 < count) by (apply Z.div_str_pos; lia).
      assert (Hm : remaining - count * valueInCents d
                   = remaining mod valueInCents d).
      { unfold count. rewrite Z.mod_eq by lia. lia. }
      pose proof (Z.mod_pos_bound remaining (valueInCents d) Hv) as Hb.
      rewrite (set_fresh _ _ _ Hfd).
      destruct (IH (denoms ++ [(name d, count)])
                  (remaining - count * valueInCents d)
                  (total + count * valueInCents d))
        as (total' & H1 & H2 & H3 & H4 & H5); auto.
      * apply Forall_forall. intros d' Hd'.
        rewrite <- (set_fresh _ _ _ Hfd).
        rewrite get_set_other.
        -- rewrite Forall_forall in Hf'. now apply Hf'.
        -- intros E. apply Hnd. rewrite <- E. now apply in_map.
      * apply denominationTotal_app; [assumption|].
        now apply findDenomination_unique.
      * rewrite <- (set_fresh _ _ _ Hfd). now apply positiveCounts_set.
      * lia.
      * exists total'. repeat split; auto; [lia|].
        intros [H|H]; apply H5.
        -- lia.
        -- inversion H as [? ? Hone|? ? Hex]; subst.
           ++ left. rewrite Hm, Hone. apply Z.mod_1_r.
           ++ now right.
    + destruct (IH denoms remaining total)
        as (total' & H1 & H2 & H3 & H4 & H5); auto.
      exists total'. repeat split; auto.
      intros [H|H]; apply H5; [now left|].
      inversion H as [? ? Hone|? ? Hex]; subst; [left; lia | now right].
Qed.

Lemma greedy_valid (currency : Currency) (transaction : Transaction) :
  wellFormed currency -> 0 <= changeInCents transaction ->
  let result := GreedyChangeStrategy.calculateChange transaction currency in
  totalChangeInCents result = changeInCents transaction /\
  validFor currency (resultDenominations result) (changeInCents transaction).
Proof.
  intros [Hpos Huniq [u [Hu Hone]]] Hc result.
  split; [reflexivity|].
  pose proof (sortDescending_perm (denominations currency)) as Hperm.
  destruct (fill_valid currency Huniq
              (sortDescending (denominations currency)) JSMap.empty
              (changeInCents transaction) 0)
    as (total' & H1 & H2 & H3 & H4 & H5); auto.
  - apply Forall_forall. intros d Hd.
    assert (Hin : In d (denominations currency))
      by (eapply Permutation_in; eassumption).
    split; [assumption|].
    rewrite Forall_forall in Hpos. now apply Hpos.
  - eapply Permutation_NoDup; [|exact Huniq].
    apply Permutation_map. now symmetry.
  - apply Forall_forall. reflexivity.
  - constructor.
  - unfold result, validFor. cbn [resultDenominations
      GreedyChangeStrategy.calculateChange].
    split; [|assumption].
    rewrite H1. f_equal.
    rewrite H5 in H2; [lia|].
    right. apply Exists_exists. exists u. split; [|assumption].
    eapply Permutation_in; [symmetry; eassumption | assumption].
Qed.

(** *** The randomized strategy *)

Ltac draw :=
  match goal with
  | |- context [Math_random ?g] => destruct (Math_random g)
  end.

Lemma biasLargerLoop_positive (sorted : list Denomination) :
  forall (denoms : JSMap.t Z) (remaining : Z) (g : MathRandom),
  positiveCounts denoms ->
  positiveCounts
    (fst (RandomChangeStrategy.biasLargerLoop sorted denoms remaining g)).
Proof.
  induction sorted as [|d rest IH]; intros denoms remaining g Hp;
    cbn [RandomChangeStrategy.biasLargerLoop]; [assumption|].
  destruct (remaining >? 0); [|assumption].
  destruct (Z.gtb_spec (remaining / valueInCents d) 0); [|now apply IH].
  draw.
  match goal with |- context [?c >? 0] => destruct (Z.gtb_spec c 0) end;
    [|now apply IH].
  apply IH. apply positiveCounts_set; [lia | assumption].
Qed.

Lemma uniformLoop_positive (sorted : list Denomination) :
  forall (denoms : JSMap.t Z) (remaining : Z) (g : MathRandom),
  positiveCounts denoms ->
  positiveCounts
    (fst (RandomChangeStrategy.uniformLoop sorted denoms remaining g)).
Proof.
  induction sorted as [|d rest IH]; intros denoms remaining g Hp;
    cbn [RandomChangeStrategy.uniformLoop]; [assumption|].
  destruct (remaining >? 0); [|assumption].
  destruct (Z.gtb_spec (remaining / valueInCents d) 0); [|now apply IH].
  draw.
  match goal with |- context [?c >? 0] => destruct (Z.gtb_spec c 0) end;
    [|now apply IH].
  apply IH. apply positiveCounts_set; [lia | assumption].
Qed.

Lemma biasSmallerLoop_positive (reversed : list Denomination) :
  forall (denoms : JSMap.t Z) (remaining : Z) (g : MathRandom),
  positiveCounts denoms ->
  positiveCounts
    (fst (RandomChangeStrategy.biasSmallerLoop reversed denoms remaining g)).
Proof.
  induction reversed as [|d rest IH]; intros denoms remaining g Hp;
    cbn [RandomChangeStrategy.biasSmallerLoop]; [assumption|].
  destruct (Z.gtb_spec (remaining / valueInCents d) 0); [|now apply IH].
  draw. draw.
  match goal with |- context [?c >? 0] => destruct (Z.gtb_spec c 0) end;
    [|now apply IH].
  apply IH. apply positiveCounts_set; assumption.
Qed.

Lemma strategies_positive :
  Forall producesPositive RandomChangeStrategy.strategies.
Proof.
  repeat constructor; intros change sorted g.
  - apply biasLargerLoop_positive. constructor.
  - apply uniformLoop_positive. constructor.
  - apply biasSmallerLoop_positive. constructor.
Qed.

Lemma tryAttempts_valid (h : RandomChangeStrategy.Heuristic)
  (attempts : nat) (change : Z) (sorted : list Denomination)
  (currency : Currency) :
  producesPositive h ->
  forall (g g1 : MathRandom) (candidate : JSMap.t Z),
  RandomChangeStrategy.tryAttempts h attempts change sorted currency g
  = (Some candidate, g1) ->
  validFor currency candidate change.
Proof.
  intros Hh. induction attempts as [|k IH]; intros g g1 candidate H;
    cbn [RandomChangeStrategy.tryAttempts] in H; [discriminate|].
  pose proof (Hh change sorted g) as Hp.
  destruct (h change sorted g) as [c g'].
  destruct (RandomChangeStrategy.isValidCombination c change currency)
    eqn:V.
  - injection H as <- <-. split; [|assumption].
    apply sumsTo_total in V. now rewrite Z.sub_0_r in V.
  - eauto.
Qed.

Lemma tryStrategies_valid (hs : list RandomChangeStrategy.Heuristic)
  (attempts : nat) (change : Z) (sorted : list Denomination)
  (currency : Currency) :
  Forall producesPositive hs ->
  forall (g g1 : MathRandom) (candidate : JSMap.t Z),
  RandomChangeStrategy.tryStrategies hs attempts change sorted currency g
  = (Some candidate, g1) ->
  validFor currency candidate change.
Proof.
  induction 1 as [|h hs Hh _ IH]; intros g g1 candidate H;
    cbn [RandomChangeStrategy.tryStrategies] in H; [discriminate|].
  destruct (RandomChangeStrategy.tryAttempts h attempts change sorted
              currency g) as [[c|] g'] eqn:E.
  - injection H as <- <-. eapply tryAttempts_valid; eassumption.
  - eauto.
Qed.

Lemma generateOptimized_valid (change : Z) (currency : Currency)
  (g g1 : MathRandom) (best : JSMap.t Z) :
  RandomChangeStrategy.generateOptimizedRandomCombination change currency g
  = (Some best, g1) ->
  validFor currency best change.
Proof.
  apply tryStrategies_valid, strategies_positive.
Qed.

Lemma cacheResult_valid (currency : Currency) (change : Z)
  (best : JSMap.t Z) (c : JSMap.t (JSMap.t Z)) :
  validFor currency best change -> cacheValid currency c ->
  cacheValid currency
    (RandomChangeStrategy.cacheResult
       (RandomChangeStrategy.cacheKey change currency) best c).
Proof.
  intros Hb Hc. unfold RandomChangeStrategy.cacheResult.
  assert (Hnew : forall change',
            RandomChangeStrategy.cacheKey change currency
            = RandomChangeStrategy.cacheKey change' currency ->
            validFor currency best change').
  { intros change' E. apply cacheKey_inj in E. now subst. }
  apply set_Forall.
  - destruct (_ <=? _); [|assumption].
    destruct (JSMap.firstKey c); [|assumption].
    destruct (truthy s); [|assumption].
    now apply delete_Forall.
  - intros k' E change' E'. cbn [fst snd] in *.
    apply String.eqb_eq in E. subst k'. now apply Hnew.
  - intros change' E'. cbn [fst snd] in *. now apply Hnew.
Qed.

Lemma random_valid (self : RandomChangeStrategy.t)
  (transaction : Transaction) (currency : Currency) (g : MathRandom) :
  wellFormed currency -> 0 <= changeInCents transaction ->
  cacheValid currency (RandomChangeStrategy.cache self) ->
  let out :=
    RandomChangeStrategy.calculateChange self transaction currency g in
  totalChangeInCents (fst (fst out)) = changeInCents transaction /\
  validFor currency (resultDenominations (fst (fst out)))
    (changeInCents transaction) /\
  cacheValid currency (RandomChangeStrategy.cache (snd (fst out))).
Proof.
  intros Hwf Hc Hcache out.
  destruct (calculateChange_cases self transaction currency g)
    as [(snap & Hhit & E) | [(_ & g1 & _ & E) | (_ & b & g1 & Hb & E)]];
    unfold out; rewrite E; cbn [fst snd totalChangeInCents
      resultDenominations RandomChangeStrategy.cache].
  - split; [reflexivity|]. split; [|assumption].
    apply get_In in Hhit. unfold cacheValid in Hcache.
    rewrite Forall_forall in Hcache.
    now apply (Hcache _ Hhit).
  - destruct (greedy_valid currency transaction Hwf Hc) as [H1 H2].
    auto.
  - apply generateOptimized_valid in Hb.
    split; [reflexivity|]. split; [assumption|].
    now apply cacheResult_valid.
Qed.

(** *** The calculator *)

Lemma calculateChange_step (cur : Currency) (config : SpecialRuleConfig)
  (self : ChangeCalculator.t) (owed paid : Z) (g : MathRandom) :
  wellFormed cur -> calculatorInvariant cur config self ->
  let out := ChangeCalculator.calculateChange self owed paid g in
  calculatorInvariant cur config (snd (fst out)) /\
  (0 <= owed -> owed <= paid ->
   exists result,
     fst (fst out) = inr result /\
     totalChangeInCents result = paid - owed /\
     validFor cur (resultDenominations result) (paid - owed)).
Proof.
  intros Hwf Hinv out. pose proof Hinv as (Hcur & Hcfg & random & Hs & Hc).
  unfold out, ChangeCalculator.calculateChange.
  destruct (ChangeCalculator.validateAmounts owed paid) as [e|] eqn:V.
  { cbn [fst snd]. split; [assumption|]. intros Ho Hp.
    assert (N : ChangeCalculator.validateAmounts owed paid = None)
      by (apply validateAmounts_None; lia).
    congruence. }
  apply validateAmounts_None in V. destruct V as [Ho Hp].
  destruct (Z.eqb_spec (paid - owed) 0) as [Hz|Hz].
  { cbn [fst snd]. split; [assumption|]. intros _ _.
    eexists. split; [reflexivity|]. cbn. rewrite Hz.
    repeat split; constructor. }
  set (transaction := {| amountOwedInCents := owed;
                         amountPaidInCents := paid;
                         changeInCents := paid - owed |}).
  unfold ChangeStrategyFactory.getStrategy. rewrite Hs, Hcur.
  cbn [ChangeStrategyFactory.firstApplicable ChangeStrategy.shouldApply].
  rewrite shouldApply_complementary.
  destruct (GreedyChangeStrategy.shouldApply transaction
              (Some (ChangeCalculator.specialRuleConfig self)));
    cbn [negb ChangeStrategyFactory.deref ChangeStrategyFactory.store nth].
  - rewrite Hs.
    cbn [nth ChangeStrategy.calculateChange fst snd
           ChangeStrategyFactory.replaceAt].
    split.
    + repeat split; try assumption. exists random. split; [|assumption].
      reflexivity.
    + intros _ _. eexists. split; [reflexivity|].
      apply (greedy_valid cur transaction Hwf). cbn. lia.
  - rewrite Hs. cbn [nth ChangeStrategy.calculateChange].
    destruct (random_valid random transaction cur g Hwf) as (H1 & H2 & H3);
      [cbn; lia | assumption |].
    destruct (RandomChangeStrategy.calculateChange random transaction cur g)
      as [[result random'] g'].
    cbn [fst snd ChangeStrategyFactory.replaceAt] in *.
    split.
    + repeat split; try assumption. exists random'. split; [|assumption].
      reflexivity.
    + intros _ _. exists result. auto.
Qed.

Lemma calculatorReachable_invariant (cur : Currency)
  (config : SpecialRuleConfig) (self : ChangeCalculator.t) :
  wellFormed cur -> calculatorReachable cur config self ->
  calculatorInvariant cur config self.
Proof.
  intros Hwf. induction 1 as [g | self owed paid g _ IH].
  - repeat split. eexists. split; [reflexivity | constructor].
  - now apply calculateChange_step.
Qed.

Lemma US_CURRENCY_wellFormed : wellFormed US_CURRENCY.
Proof.
  constructor.
  - repeat constructor.
  - cbn. repeat constructor; cbn; intuition discriminate.
  - exists {| name := "penny"; valueInCents := 1 |}. cbn. auto 10.
Qed.

(** C1: for a currency as the data model describes it (positive values,
    unique names) whose table has a denomination of value 1, and a
    calculator built for it, in whatever state earlier calls have left it
    and whatever [Math.random] draws: when [paid >= owed >= 0],
    [calculateChange] returns a result whose total is [paid - owed], whose
    mapping sums (count times value) to that total, and whose counts are
    all strictly positive.  This holds on both paths: the result of the
    minimal-count strategy for the transaction has these properties, and
    so has the result of the randomized strategy registered in the
    calculator, be it answered from the cache, by the search or by the
    fall-back. *)
Theorem calculateChange_correct (cur : Currency)
  (config : SpecialRuleConfig) (self : ChangeCalculator.t)
  (owed paid : Z) (g : MathRandom) :
  wellFormed cur ->
  calculatorReachable cur config self ->
  0 <= owed -> owed <= paid ->
  (exists result self' g',
     ChangeCalculator.calculateChange self owed paid g
     = (inr result, self', g') /\
     totalChangeInCents result = paid - owed /\
     denominationTotal cur (resultDenominations result)
     = Some (paid - owed) /\
     positiveCounts (resultDenominations result)) /\
  (let result :=
     GreedyChangeStrategy.calculateChange (mkTransaction owed paid) cur in
   totalChangeInCents result = paid - owed /\
   denominationTotal cur (resultDenominations result) = Some (paid - owed) /\
   positiveCounts (resultDenominations result)) /\
  (forall random,
     In (Random random)
       (ChangeStrategyFactory.strategies
          (ChangeCalculator.strategyFactory self)) ->
     let result :=
       fst (fst (RandomChangeStrategy.calculateChange random
                   (mkTransaction owed paid) cur g)) in
     totalChangeInCents result = paid - owed /\
     denominationTotal cur (resultDenominations result) = Some (paid - owed) /\
     positiveCounts (resultDenominations result)).
Proof.
  intros Hwf Hreach Ho Hp.
  pose proof (calculatorReachable_invariant cur config self Hwf Hreach)
    as Hinv.
  assert (Hc : 0 <= changeInCents (mkTransaction owed paid)) by (cbn; lia).
  split; [|split].
  - destruct (calculateChange_step cur config self owed paid g Hwf Hinv)
      as [_ H].
    destruct (H Ho Hp) as (result & E & Ht & Hsum & Hpos).
    destruct (ChangeCalculator.calculateChange self owed paid g)
      as [[out self'] g'].
    cbn [fst] in E. subst out.
    exists result, self', g'. auto.
  - destruct (greedy_valid cur (mkTransaction owed paid) Hwf Hc)
      as (H1 & [H2 H3]).
    auto.
  - intros random Hin.
    destruct Hinv as (_ & _ & r & Hs & Hcache).
    rewrite Hs in Hin. cbn [In] in Hin.
    destruct Hin as [Hin|[Hin|[]]]; [|discriminate].
    injection Hin as <-.
    destruct (random_valid r (mkTransaction owed paid) cur g Hwf Hc Hcache)
      as (H1 & [H2 H3] & _).
    auto.
Qed.

Lemma calculateChange_correct_witness :
  exists result self' g',
    ChangeCalculator.calculateChange
      (fst (ChangeCalculator.new US_CURRENCY defaultRule None
              (SeededRandom 12345)))
      100 268 (SeededRandom 12345)
    = (inr result, self', g') /\
    totalChangeInCents result = 268 - 100 /\
    denominationTotal US_CURRENCY (resultDenominations result)
    = Some (268 - 100) /\
    positiveCounts (resultDenominations result).
Proof.
  apply (calculateChange_correct US_CURRENCY defaultRule).
  - exact US_CURRENCY_wellFormed.
  - apply reach_fresh.
  - lia.
  - lia.
Defined.

(** The randomized path of C1 at work: a change of 168 with the rule of
    the divisor 3, on a generator seeded with 12345. *)
Example randomized_scenario :
  fst (fst (ChangeCalculator.calculateChange
              (fst (ChangeCalculator.new US_CURRENCY defaultRule None
                      (SeededRandom 12345)))
              100 268 (SeededRandom 12345)))
  = inr {| totalChangeInCents := 168;
           resultDenominations :=
             [("dollar", 1); ("quarter", 2); ("dime", 1); ("nickel", 1);
              ("penny", 3)]%string;
           formattedOutput :=
             "1 dollar,2 quarters,1 dime,1 nickel,3 pennies" |}.
Proof. vm_compute. reflexivity. Qed.

(** ** Seeded randomness *)

(** An instance constructed with a seed and used before any other
    instance is constructed (and before anything else draws from
    [Math.random]) replays the same results from the same seed. *)
Lemma seeded_replay_in_isolation (seed : Z) (g g' : MathRandom)
  (changes : list Z) (currency : Currency) :
  (let (a, ga) := RandomChangeStrategy.new (Some seed) g in
   fst (fst (calculateAll a changes currency ga)))
  = (let (b, gb) := RandomChangeStrategy.new (Some seed) g' in
     fst (fst (calculateAll b changes currency gb))).
Proof. reflexivity. Qed.

(** C10 (defect of the code): the seed is not private to the instance.
    [setupSeededRandom] replaces the process-wide [Math.random], so two
    instances constructed with the seed 12345 draw from one sequence: the
    same single call, for a change of 180 in US currency, is answered by
    the first instance with 1 dollar, 2 quarters, 2 dimes and 2 nickels
    and by the second with 1 dollar, 2 quarters and 3 dimes. *)
Theorem seeded_instances_interfere :
  let '(a, g1) := RandomChangeStrategy.new (Some 12345) zeroRandom in
  let '(b, g2) := RandomChangeStrategy.new (Some 12345) g1 in
  let '(resultA, _, g3) :=
    RandomChangeStrategy.calculateChange a (mkTransaction 120 300)
      US_CURRENCY g2 in
  let '(resultB, _, _) :=
    RandomChangeStrategy.calculateChange b (mkTransaction 120 300)
      US_CURRENCY g3 in
  a = b /\
  formattedOutput resultA = "1 dollar,2 quarters,2 dimes,2 nickels"%string /\
  formattedOutput resultB = "1 dollar,2 quarters,3 dimes"%string /\
  resultA <> resultB.
Proof.
  vm_compute.
  split; [reflexivity|]. split; [reflexivity|]. split; [reflexivity|].
  discriminate.
Qed.

(** ** Further properties of the minimal-count strategy *)

Lemma fill_remainder (sorted : list Denomination) :
  forall (denoms : JSMap.t Z) (remaining : Z),
  Forall (fun d => 0 < valueInCents d) sorted ->
  0 <= remaining ->
  0 <= snd (GreedyChangeStrategy.fill sorted denoms remaining) <= remaining /\
  Forall (fun d =>
            snd (GreedyChangeStrategy.fill sorted denoms remaining)
            < valueInCents d) sorted.
Proof.
  induction sorted as [|d rest IH]; intros denoms remaining Hp Hr.
  - cbn. split; [lia | constructor].
  - inversion Hp as [|? ? Hv Hp']; subst.
    cbn [GreedyChangeStrategy.fill].
    destruct (Z.leb_spec (valueInCents d) remaining) as [Hle|Hgt].
    + pose proof (Z.mod_pos_bound remaining (valueInCents d) Hv) as Hb.
      assert (Hm : remaining - remaining / valueInCents d * valueInCents d
                   = remaining mod valueInCents d)
        by (rewrite Z.mod_eq by lia; lia).
      rewrite Hm.
      destruct (IH (JSMap.set (name d) (remaining / valueInCents d) denoms)
                  (remaining mod valueInCents d) Hp') as [H1 H2]; [lia|].
      split; [lia|]. constructor; [lia | assumption].
    + destruct (IH denoms remaining Hp' Hr) as [H1 H2].
      split; [assumption|]. constructor; [lia | assumption].
Qed.

Lemma fill_nothing (sorted : list Denomination) (denoms : JSMap.t Z) :
  Forall (fun d => 0 < valueInCents d) sorted ->
  GreedyChangeStrategy.fill sorted denoms 0 = (denoms, 0).
Proof.
  induction 1 as [|d rest Hv _ IH]; cbn [GreedyChangeStrategy.fill];
    [reflexivity|].
  destruct (Z.leb_spec (valueInCents d) 0); [lia | assumption].
Qed.

Lemma sortDescending_positive (l : list Denomination) :
  Forall (fun d => 0 < valueInCents d) l ->
  Forall (fun d => 0 < valueInCents d) (sortDescending l).
Proof.
  intros H. eapply Permutation_Forall; [|exact H].
  symmetry. apply sortDescending_perm.
Qed.

(** X1: for a table with positive values and unique names, with or
    without a unit, the minimal-count strategy never hands out more than
    the change: its mapping sums to an amount that is at most the change,
    and what is left over is smaller than every denomination of the
    table; all its counts are positive; for a change of 0 the mapping and
    the text are empty. *)
Theorem greedy_remainder (transaction : Transaction) (currency : Currency) :
  Forall (fun d => 0 < valueInCents d) (denominations currency) ->
  NoDup (map name (denominations currency)) ->
  0 <= changeInCents transaction ->
  let result := GreedyChangeStrategy.calculateChange transaction currency in
  (exists given,
     denominationTotal currency (resultDenominations result) = Some given /\
     0 <= changeInCents transaction - given /\
     Forall (fun d => changeInCents transaction - given < valueInCents d)
       (denominations currency)) /\
  positiveCounts (resultDenominations result) /\
  (changeInCents transaction = 0 ->
   resultDenominations result = JSMap.empty /\
   formattedOutput result = ""%string).
Proof.
  intros Hpos Huniq Hc result.
  pose proof (sortDescending_perm (denominations currency)) as Hperm.
  pose proof (sortDescending_positive _ Hpos) as Hsp.
  destruct (fill_valid currency Huniq
              (sortDescending (denominations currency)) JSMap.empty
              (changeInCents transaction) 0)
    as (total' & H1 & H2 & H3 & H4 & _); auto.
  { apply Forall_forall. intros d Hd.
    assert (Hin : In d (denominations currency))
      by (eapply Permutation_in; eassumption).
    split; [assumption|].
    rewrite Forall_forall in Hpos. now apply Hpos. }
  { eapply Permutation_NoDup; [|exact Huniq].
    apply Permutation_map. now symmetry. }
  { apply Forall_forall. reflexivity. }
  { constructor. }
  destruct (fill_remainder (sortDescending (denominations currency))
              JSMap.empty (changeInCents transaction) Hsp Hc) as [H5 H6].
  split; [|split].
  - exists total'. split; [exact H1|]. split; [lia|].
    eapply Permutation_Forall; [exact Hperm|].
    eapply Forall_impl; [|exact H6]. cbn. intros d Hd. lia.
  - exact H3.
  - intros Hz. unfold result, GreedyChangeStrategy.calculateChange.
    rewrite Hz, (fill_nothing _ _ Hsp). split; reflexivity.
Qed.

Lemma greedy_remainder_witness :
  let result :=
    GreedyChangeStrategy.calculateChange (mkTransaction 4 10) NO_UNIT in
  resultDenominations result = [("five"%string, 1)] /\
  exists given,
    denominationTotal NO_UNIT (resultDenominations result) = Some given /\
    0 <= 6 - given /\
    Forall (fun d => 6 - given < valueInCents d) (denominations NO_UNIT).
Proof.
  intros result. split; [reflexivity|].
  destruct (greedy_remainder (mkTransaction 4 10) NO_UNIT) as [H _].
  - repeat constructor.
  - cbn. repeat constructor; cbn; intuition discriminate.
  - cbn. lia.
  - exact H.
Defined.

(** Counting pieces *)

Lemma coinCount_app (m : JSMap.t Z) (n : string) (count : Z) :
  coinCount (m ++ [(n, count)]) = coinCount m + count.
Proof.
  induction m as [|[n' c'] m IH]; cbn; [lia|].
  unfold coinCount in IH. cbn in IH. rewrite IH. lia.
Qed.

Lemma fill_count (sorted : list Denomination) :
  forall (denoms : JSMap.t Z) (remaining : Z),
  Forall (fun d => 0 < valueInCents d) sorted ->
  NoDup (map name sorted) ->
  Forall (fun d => JSMap.get (name d) denoms = None) sorted ->
  0 <= remaining ->
  coinCount (fst (GreedyChangeStrategy.fill sorted denoms remaining))
  = coinCount denoms + greedyCount (map valueInCents sorted) remaining.
Proof.
  induction sorted as [|d rest IH]; intros denoms remaining Hp Hn Hf Hr.
  - cbn [GreedyChangeStrategy.fill fst map greedyCount]. lia.
  - inversion Hp as [|? ? Hv Hp']; subst.
    inversion Hn as [|? ? Hnd Hn']; subst.
    inversion Hf as [|? ? Hfd Hf']; subst.
    cbn [GreedyChangeStrategy.fill map greedyCount].
    destruct (Z.leb_spec (valueInCents d) remaining) as [Hle|Hgt].
    + pose proof (Z.mod_pos_bound remaining (valueInCents d) Hv) as Hb.
      assert (Hm : remaining - remaining / valueInCents d * valueInCents d
                   = remaining mod valueInCents d)
        by (rewrite Z.mod_eq by lia; lia).
      rewrite Hm.
      assert (Hfresh : Forall (fun d' =>
                JSMap.get (name d')
                  (JSMap.set (name d) (remaining / valueInCents d) denoms)
                = None) rest).
      { apply Forall_forall. intros d' Hd'.
        rewrite get_set_other.
        - rewrite Forall_forall in Hf'. now apply Hf'.
        - intros E. apply Hnd. rewrite <- E. now apply in_map. }
      rewrite (IH _ _ Hp' Hn' Hfresh) by lia.
      rewrite (set_fresh _ _ _ Hfd), coinCount_app. lia.
    + rewrite IH by auto.
      rewrite Z.div_small, Z.mod_small by lia. lia.
Qed.

Lemma registered_currency (c : string) (currency : Currency) :
  getCurrencyByCode c = inr (RegisteredCurrency currency) ->
  (c = "USD"%string /\ currency = US_CURRENCY) \/
  (c = "EUR"%string /\ currency = EUR_CURRENCY).
Proof.
  unfold getCurrencyByCode, registryLookup.
  cbn [JSMap.get CURRENCY_REGISTRY find fst snd option_map].
  destruct (String.eqb_spec c "USD") as [->|_]; [intros [= <-]; auto|].
  destruct (String.eqb_spec c "EUR") as [->|_]; [intros [= <-]; auto|].
  destruct (existsb (String.eqb c) OBJECT_PROTOTYPE_NAMES); discriminate.
Qed.

Lemma greedy_count_registered (currency : Currency) (change : Z) :
  currency = US_CURRENCY \/ currency = EUR_CURRENCY ->
  0 <= change ->
  coinCount
    (fst (GreedyChangeStrategy.fill (sortDescending (denominations currency))
            JSMap.empty change))
  = greedyCount (map valueInCents (denominations currency)) change.
Proof.
  intros [->| ->] Hc.
  - change (sortDescending (denominations US_CURRENCY))
      with (denominations US_CURRENCY).
    rewrite fill_count; auto.
    + repeat constructor.
    + cbn. repeat constructor; cbn; intuition discriminate.
    + apply Forall_forall. reflexivity.
  - change (sortDescending (denominations EUR_CURRENCY))
      with (denominations EUR_CURRENCY).
    rewrite fill_count; auto.
    + repeat constructor.
    + cbn. repeat constructor; cbn; intuition discriminate.
    + apply Forall_forall. reflexivity.
Qed.

(** X2: for a currency of the registry, no way of making up the change
    with non-negative counts of its denominations uses fewer pieces than
    the mapping of the minimal-count strategy. *)
Theorem greedy_minimal_for_registered (c : string) (currency : Currency)
  (transaction : Transaction) (counts : list Z) :
  getCurrencyByCode c = inr (RegisteredCurrency currency) ->
  0 <= changeInCents transaction ->
  List.length counts = List.length (denominations currency) ->
  Forall (fun count => 0 <= count) counts ->
  combinationValue (denominations currency) counts
  = changeInCents transaction ->
  coinCount
    (resultDenominations
       (GreedyChangeStrategy.calculateChange transaction currency))
  <= pieces counts.
Proof.
  intros Hreg Hc Hlen Hpos Hval.
  apply registered_currency in Hreg.
  assert (Hcur : currency = US_CURRENCY \/ currency = EUR_CURRENCY)
    by (destruct Hreg as [[_ ->]|[_ ->]]; auto).
  unfold GreedyChangeStrategy.calculateChange. cbn [resultDenominations].
  rewrite (greedy_count_registered currency _ Hcur Hc).
  revert Hval. generalize (changeInCents transaction) as n. intros n Hval.
  destruct Hcur as [->| ->]; cbn in Hlen.
  - destruct counts as [|a [|b [|c0 [|d [|e [|]]]]]]; try discriminate.
    repeat (apply Forall_cons_iff in Hpos; destruct Hpos as [? Hpos]).
    cbn in Hval |- *. unfold pieces. cbn.
    Z.div_mod_to_equations. lia.
  - destruct counts as [|a [|b [|c0 [|d [|e [|f [|g0 [|]]]]]]]];
      try discriminate.
    repeat (apply Forall_cons_iff in Hpos; destruct Hpos as [? Hpos]).
    cbn in Hval |- *. unfold pieces. cbn.
    Z.div_mod_to_equations. lia.
Qed.

Lemma greedy_minimal_for_registered_witness :
  coinCount
    (resultDenominations
       (GreedyChangeStrategy.calculateChange (mkTransaction 212 300)
          US_CURRENCY))
  <= pieces [0; 2; 3; 1; 3].
Proof.
  apply (greedy_minimal_for_registered "USD" US_CURRENCY
           (mkTransaction 212 300) [0; 2; 3; 1; 3]).
  - reflexivity.
  - cbn. lia.
  - reflexivity.
  - repeat constructor; lia.
  - reflexivity.
Defined.

(** Order of the table *)

Lemma insertDescending_comm (a b : Denomination) (l : list Denomination) :
  valueInCents a <> valueInCents b ->
  insertDescending a (insertDescending b l)
  = insertDescending b (insertDescending a l).
Proof.
  intros Hab. induction l as [|x l IH]; cbn.
  - destruct (Z.leb_spec (valueInCents b) (valueInCents a));
      destruct (Z.leb_spec (valueInCents a) (valueInCents b));
      try reflexivity; lia.
  - destruct (Z.leb_spec (valueInCents x) (valueInCents b)) as [Hb|Hb];
      destruct (Z.leb_spec (valueInCents x) (valueInCents a)) as [Ha|Ha];
      cbn;
      repeat match goal with
             | |- context [?u <=? ?v] => destruct (Z.leb_spec u v)
             end;
      try reflexivity; try lia.
    now rewrite IH.
Qed.

Lemma sortDescending_permutation (l1 l2 : list Denomination) :
  Permutation l1 l2 ->
  NoDup (map valueInCents l1) ->
  sortDescending l1 = sortDescending l2.
Proof.
  induction 1 as [|x l1 l2 Hp IH|x y l|l1 l2 l3 H12 IH12 H23 IH23];
    intros Hn.
  - reflexivity.
  - cbn in Hn |- *. inversion Hn; subst. now rewrite IH.
  - cbn in Hn |- *. apply insertDescending_comm.
    inversion Hn as [|? ? Hy _]; subst. intros E. apply Hy. left.
    now symmetry.
  - rewrite IH12 by assumption. apply IH23.
    eapply Permutation_NoDup; [|exact Hn]. now apply Permutation_map.
Qed.

(** X3: the minimal-count strategy sorts the table itself, so its
    result does not depend on the order in which a currency lists its
    denominations, as long as their values are pairwise distinct. *)
Theorem greedy_table_order_irrelevant (transaction : Transaction)
  (c1 c2 : Currency) :
  Permutation (denominations c1) (denominations c2) ->
  NoDup (map valueInCents (denominations c1)) ->
  GreedyChangeStrategy.calculateChange transaction c1
  = GreedyChangeStrategy.calculateChange transaction c2.
Proof.
  intros Hp Hn. unfold GreedyChangeStrategy.calculateChange.
  now rewrite (sortDescending_permutation _ _ Hp Hn).
Qed.

Lemma greedy_table_order_irrelevant_witness :
  GreedyChangeStrategy.calculateChange (mkTransaction 212 300) US_CURRENCY
  = GreedyChangeStrategy.calculateChange (mkTransaction 212 300) US_ASCENDING.
Proof.
  apply greedy_table_order_irrelevant.
  - apply Permutation_rev.
  - cbn. repeat constructor; cbn; intuition discriminate.
Defined.

(** X4: [isValidCombination] accepts exactly the mappings whose names
    are all in the table of the currency and whose counts, weighted by the
    values found there, add up to the target; a mapping with a name that
    the table lacks is rejected. *)
Theorem isValidCombination_iff (denoms : JSMap.t Z) (targetAmount : Z)
  (currency : Currency) :
  RandomChangeStrategy.isValidCombination denoms targetAmount currency = true
  <-> denominationTotal currency denoms = Some targetAmount.
Proof.
  unfold RandomChangeStrategy.isValidCombination.
  assert (G : forall acc,
            RandomChangeStrategy.sumsTo currency denoms acc targetAmount = true
            <-> exists total,
                  denominationTotal currency denoms = Some total /\
                  acc + total = targetAmount).
  { induction denoms as [|[n c] m IH]; intros acc; cbn.
    - rewrite Z.eqb_eq. split.
      + intros H. exists 0. split; [reflexivity | lia].
      + intros (t & [= <-] & H). lia.
    - destruct (findDenomination currency n) as [d|].
      + rewrite IH. split.
        * intros (t & Ht & H). rewrite Ht. eexists. split; [reflexivity|lia].
        * intros (t & Ht & H).
          destruct (denominationTotal currency m) as [t'|]; [|discriminate].
          injection Ht as <-. exists t'. split; [reflexivity | lia].
      + split; [discriminate|]. intros (t & Ht & _). discriminate. }
  rewrite G. split.
  - intros (t & Ht & H). rewrite Ht. f_equal. lia.
  - intros H. exists targetAmount. split; [assumption | lia].
Qed.

(** ** Further properties of the calculator *)

Lemma listed_positive (m : JSMap.t Z) : positiveCounts m -> listed m = m.
Proof.
  induction 1 as [|[n c] m Hc _ IH]; cbn; [reflexivity|].
  cbn in Hc. destruct (Z.ltb_spec 0 c); [|lia].
  unfold listed in IH. now rewrite IH.
Qed.

Lemma renderEntry_nonempty (entry : string * Z) :
  renderEntry entry <> ""%string.
Proof.
  destruct entry as [n c]. unfold renderEntry.
  destruct (numberToString c); discriminate.
Qed.

Lemma concat_nonempty (x : string) (xs : list string) :
  x <> ""%string -> String.concat "," (x :: xs) <> ""%string.
Proof.
  intros Hx. destruct xs as [|y ys]; cbn; [assumption|].
  destruct x; [contradiction | discriminate].
Qed.

Lemma random_text (self : RandomChangeStrategy.t)
  (transaction : Transaction) (currency : Currency) (g : MathRandom) :
  let result :=
    fst (fst (RandomChangeStrategy.calculateChange self transaction
                currency g)) in
  formattedOutput result
  = GreedyChangeStrategy.formatOutput (resultDenominations result).
Proof.
  destruct (calculateChange_cases self transaction currency g)
    as [(snap & _ & E) | [(_ & g1 & _ & E) | (_ & b & g1 & _ & E)]];
    cbv zeta; rewrite E; reflexivity.
Qed.

(** X5: whatever strategy answered, the text of a result of the
    calculator is the rendering of the mapping returned with it, entry by
    entry and in its order; it is empty exactly when nothing is due. *)
Theorem formattedOutput_describes_result (cur : Currency)
  (config : SpecialRuleConfig) (self : ChangeCalculator.t)
  (owed paid : Z) (g : MathRandom) (result : ChangeResult) :
  wellFormed cur ->
  calculatorReachable cur config self ->
  fst (fst (ChangeCalculator.calculateChange self owed paid g)) = inr result ->
  formattedOutput result
  = String.concat "," (map renderEntry (resultDenominations result)) /\
  (formattedOutput result = ""%string <-> paid = owed).
Proof.
  intros Hwf Hreach Hres.
  assert (V : 0 <= owed /\ owed <= paid).
  { apply validateAmounts_None.
    destruct (ChangeCalculator.validateAmounts owed paid) as [e|] eqn:V;
      [|reflexivity].
    rewrite (calculateChange_throws self owed paid g e V) in Hres.
    discriminate. }
  destruct V as [Ho Hp].
  pose proof (calculatorReachable_invariant cur config self Hwf Hreach)
    as Hinv.
  destruct (calculateChange_step cur config self owed paid g Hwf Hinv)
    as [_ H].
  destruct (H Ho Hp) as (result' & E & Ht & Hsum & Hpos).
  rewrite Hres in E. injection E as <-.
  assert (Htext : formattedOutput result
                  = GreedyChangeStrategy.formatOutput
                      (resultDenominations result)).
  { destruct Hinv as (Hcur & Hcfg & random & Hs & Hc).
    revert Hres. unfold ChangeCalculator.calculateChange.
    destruct (ChangeCalculator.validateAmounts owed paid);
      [discriminate|].
    destruct (paid - owed =? 0); [intros [= <-]; reflexivity|].
    unfold ChangeStrategyFactory.getStrategy. rewrite Hs.
    cbn [ChangeStrategyFactory.firstApplicable ChangeStrategy.shouldApply].
    destruct (RandomChangeStrategy.shouldApply _ _);
      [|destruct (GreedyChangeStrategy.shouldApply _ _)];
      cbn [ChangeStrategyFactory.deref]; rewrite ?Hs;
      cbn [nth ChangeStrategy.calculateChange].
    - match goal with
      | |- context [RandomChangeStrategy.calculateChange ?s ?t ?c ?g0] =>
          pose proof (random_text s t c g0) as R;
          destruct (RandomChangeStrategy.calculateChange s t c g0)
            as [[r s'] g']
      end.
      cbn [fst] in R |- *. intros [= <-]. exact R.
    - intros [= <-]. reflexivity.
    - intros [= <-]. reflexivity. }
  split.
  - rewrite Htext. unfold GreedyChangeStrategy.formatOutput.
    rewrite pushPart_fold, (listed_positive _ Hpos). reflexivity.
  - rewrite Htext. unfold GreedyChangeStrategy.formatOutput.
    rewrite pushPart_fold, (listed_positive _ Hpos). cbn [app].
    destruct (resultDenominations result) as [|entry m] eqn:Em.
    + cbn in Hsum. split; [intros _; injection Hsum; lia | reflexivity].
    + split.
      * intros C. exfalso. revert C. cbn [map].
        apply concat_nonempty, renderEntry_nonempty.
      * intros ->. exfalso.
        destruct entry as [n c]. cbn in Hsum.
        destruct (findDenomination cur n) as [d|] eqn:Fd; [|discriminate].
        destruct (denominationTotal cur m) as [t|] eqn:Tm; [|discriminate].
        inversion Hpos as [|? ? Hc0 Hm]; subst. cbn in Hc0.
        assert (Hd : 0 < valueInCents d).
        { unfold findDenomination in Fd. apply find_some in Fd.
          destruct Fd as [Hin _]. destruct Hwf as [Hp0 _ _].
          rewrite Forall_forall in Hp0. now apply Hp0. }
        assert (Ht0 : 0 <= t).
        { clear - Tm Hm Hwf. revert t Tm.
          induction Hm as [|[n' c'] m' Hc' _ IH]; intros t Tm; cbn in Tm.
          - injection Tm as <-. lia.
          - destruct (findDenomination cur n') as [d'|] eqn:Fd';
              [|discriminate].
            destruct (denominationTotal cur m') as [t'|]; [|discriminate].
            injection Tm as <-. specialize (IH t' eq_refl).
            assert (0 < valueInCents d').
            { unfold findDenomination in Fd'. apply find_some in Fd'.
              destruct Fd' as [Hin _]. destruct Hwf as [Hp0 _ _].
              rewrite Forall_forall in Hp0. now apply Hp0. }
            cbn in Hc'. nia. }
        injection Hsum as Hsum. nia.
Qed.

Lemma formattedOutput_describes_result_witness :
  exists result,
    fst (fst (ChangeCalculator.calculateChange
                (fst (ChangeCalculator.new US_CURRENCY defaultRule None
                        (SeededRandom 12345)))
                100 268 (SeededRandom 12345))) = inr result /\
    (formattedOutput result = ""%string <-> 268 = 100).
Proof.
  eexists. split.
  - vm_compute. reflexivity.
  - apply (formattedOutput_describes_result US_CURRENCY defaultRule
             (fst (ChangeCalculator.new US_CURRENCY defaultRule None
                     (SeededRandom 12345)))
             100 268 (SeededRandom 12345)).
    + exact US_CURRENCY_wellFormed.
    + apply reach_fresh.
    + vm_compute. reflexivity.
Defined.

(** X6: with the two default strategies, when the change is not a
    multiple of the divisor of the rule (or the divisor is 0), the
    calculator answers with the result of the minimal-count strategy
    and leaves itself, the cache of the randomized strategy included, and
    [Math.random] untouched: no draw is made. *)
Theorem rule_idle_is_deterministic (self : ChangeCalculator.t)
  (random : RandomChangeStrategy.t) (owed paid : Z) (g : MathRandom) :
  ChangeStrategyFactory.strategies (ChangeCalculator.strategyFactory self)
  = [Random random; Greedy] ->
  0 <= owed -> owed < paid ->
  isZero (jsRem (paid - owed)
            (divisor (ChangeCalculator.specialRuleConfig self))) = false ->
  ChangeCalculator.calculateChange self owed paid g
  = (inr (GreedyChangeStrategy.calculateChange (mkTransaction owed paid)
            (ChangeCalculator.currency self)), self, g).
Proof.
  intros Hs Ho Hp Hrule. unfold ChangeCalculator.calculateChange.
  assert (V : ChangeCalculator.validateAmounts owed paid = None)
    by (apply validateAmounts_None; lia).
  rewrite V. destruct (Z.eqb_spec (paid - owed) 0); [lia|].
  unfold ChangeStrategyFactory.getStrategy. rewrite Hs.
  cbn [ChangeStrategyFactory.firstApplicable ChangeStrategy.shouldApply
         RandomChangeStrategy.shouldApply GreedyChangeStrategy.shouldApply
         changeInCents].
  rewrite Hrule.
  cbn [negb ChangeStrategyFactory.deref ChangeStrategyFactory.store].
  rewrite Hs. cbn [nth ChangeStrategy.calculateChange
                     ChangeStrategyFactory.replaceAt].
  destruct self as [cur cfg [l]]. cbn in Hs |- *. subst l. reflexivity.
Qed.

Lemma rule_idle_is_deterministic_witness :
  let self :=
    fst (ChangeCalculator.new US_CURRENCY defaultRule None
           (SeededRandom 12345)) in
  ChangeCalculator.calculateChange self 212 300 (SeededRandom 12345)
  = (inr (GreedyChangeStrategy.calculateChange (mkTransaction 212 300)
            US_CURRENCY), self, SeededRandom 12345).
Proof.
  intros self.
  apply (rule_idle_is_deterministic self
           (fst (RandomChangeStrategy.new None (SeededRandom 12345)))).
  - reflexivity.
  - lia.
  - lia.
  - reflexivity.
Defined.

(** ** Further properties of the randomized strategy *)

Lemma within_refl (g : MathRandom) : within 0 g g.
Proof. exists 0%nat. split; [lia | reflexivity]. Qed.

Lemma within_weaken (a b : nat) (g g' : MathRandom) :
  (a <= b)%nat -> within a g g' -> within b g g'.
Proof. intros H (k & Hk & E). exists k. split; [lia | assumption]. Qed.

Lemma within_trans (a b : nat) (g g1 g2 : MathRandom) :
  within a g g1 -> within b g1 g2 -> within (a + b) g g2.
Proof.
  intros (k1 & H1 & E1) (k2 & H2 & E2). exists (k2 + k1)%nat.
  split; [lia|]. subst. unfold drawn. now rewrite Nat.iter_add.
Qed.

Lemma within_draw (g : MathRandom) : within 1 g (snd (Math_random g)).
Proof. exists 1%nat. split; [lia | reflexivity]. Qed.

Lemma biasLargerLoop_budget (sorted : list Denomination) :
  forall (denoms : JSMap.t Z) (remaining : Z) (g : MathRandom),
  within (List.length sorted) g
    (snd (RandomChangeStrategy.biasLargerLoop sorted denoms remaining g)).
Proof.
  induction sorted as [|d rest IH]; intros denoms remaining g;
    cbn [RandomChangeStrategy.biasLargerLoop List.length].
  - apply within_refl.
  - destruct (remaining >? 0);
      [|apply (within_weaken 0); [lia | apply within_refl]].
    destruct (remaining / valueInCents d >? 0);
      [|apply (within_weaken (List.length rest)); [lia | apply IH]].
    pose proof (within_draw g) as Hd.
    destruct (Math_random g) as [r g1]. cbn [snd] in Hd.
    change (S (List.length rest)) with (1 + List.length rest)%nat.
    match goal with |- context [?c >? 0] => destruct (c >? 0) end;
      (eapply within_trans; [exact Hd | apply IH]).
Qed.

Lemma uniformLoop_budget (sorted : list Denomination) :
  forall (denoms : JSMap.t Z) (remaining : Z) (g : MathRandom),
  within (List.length sorted) g
    (snd (RandomChangeStrategy.uniformLoop sorted denoms remaining g)).
Proof.
  induction sorted as [|d rest IH]; intros denoms remaining g;
    cbn [RandomChangeStrategy.uniformLoop List.length].
  - apply within_refl.
  - destruct (remaining >? 0);
      [|apply (within_weaken 0); [lia | apply within_refl]].
    destruct (remaining / valueInCents d >? 0);
      [|apply (within_weaken (List.length rest)); [lia | apply IH]].
    pose proof (within_draw g) as Hd.
    destruct (Math_random g) as [r g1]. cbn [snd] in Hd.
    change (S (List.length rest)) with (1 + List.length rest)%nat.
    match goal with |- context [?c >? 0] => destruct (c >? 0) end;
      (eapply within_trans; [exact Hd | apply IH]).
Qed.

Lemma biasSmallerLoop_budget (reversed : list Denomination) :
  forall (denoms : JSMap.t Z) (remaining : Z) (g : MathRandom),
  within (2 * List.length reversed) g
    (snd (RandomChangeStrategy.biasSmallerLoop reversed denoms remaining g)).
Proof.
  induction reversed as [|d rest IH]; intros denoms remaining g;
    cbn [RandomChangeStrategy.biasSmallerLoop List.length].
  - apply within_refl.
  - destruct (remaining / valueInCents d >? 0);
      [|apply (within_weaken (2 * List.length rest)); [lia | apply IH]].
    pose proof (within_draw g) as Hd.
    destruct (Math_random g) as [r0 g1]. cbn [snd] in Hd.
    pose proof (within_draw g1) as Hd1.
    destruct (Math_random g1) as [r1 g2]. cbn [snd] in Hd1.
    replace (2 * S (List.length rest))%nat
      with (1 + 1 + 2 * List.length rest)%nat by lia.
    match goal with |- context [?c >? 0] => destruct (c >? 0) end;
      (eapply within_trans;
       [eapply within_trans; [exact Hd | exact Hd1] | apply IH]).
Qed.

Lemma tryAttempts_budget (h : RandomChangeStrategy.Heuristic) (b : nat)
  (attempts : nat) (change : Z) (sorted : list Denomination)
  (currency : Currency) :
  drawsAtMost b h sorted ->
  forall g,
  within (attempts * b) g
    (snd (RandomChangeStrategy.tryAttempts h attempts change sorted
            currency g)).
Proof.
  intros Hh. induction attempts as [|k IH]; intros g;
    cbn [RandomChangeStrategy.tryAttempts].
  - apply within_refl.
  - pose proof (Hh change g) as Hd.
    destruct (h change sorted g) as [c g1]. cbn [snd] in Hd.
    destruct (RandomChangeStrategy.isValidCombination c change currency).
    + cbn [snd]. apply (within_weaken b); [lia | assumption].
    + replace (S k * b)%nat with (b + k * b)%nat by lia.
      eapply within_trans; [exact Hd | apply IH].
Qed.

Lemma search_budget (change : Z) (currency : Currency) (g : MathRandom) :
  within (664 * List.length (denominations currency)) g
    (snd (RandomChangeStrategy.generateOptimizedRandomCombination change
            currency g)).
Proof.
  unfold RandomChangeStrategy.generateOptimizedRandomCombination,
    RandomChangeStrategy.strategies.
  set (sorted := sortDescending (denominations currency)).
  assert (L : List.length sorted = List.length (denominations currency))
    by apply Permutation_length, sortDescending_perm.
  rewrite <- L.
  assert (H1 : drawsAtMost (List.length sorted)
                 RandomChangeStrategy.generateRandomWithBiasTowardsLarger
                 sorted)
    by (intros c g0; apply biasLargerLoop_budget).
  assert (H2 : drawsAtMost (List.length sorted)
                 RandomChangeStrategy.generateRandomWithUniformDistribution
                 sorted)
    by (intros c g0; apply uniformLoop_budget).
  assert (H3 : drawsAtMost (2 * List.length sorted)
                 RandomChangeStrategy.generateRandomWithBiasTowardsSmaller
                 sorted).
  { intros c g0.
    unfold RandomChangeStrategy.generateRandomWithBiasTowardsSmaller.
    rewrite <- (length_rev sorted). apply biasSmallerLoop_budget. }
  change RandomChangeStrategy.attemptsPerStrategy with 166%nat.
  cbn [RandomChangeStrategy.tryStrategies].
  pose proof (tryAttempts_budget _ _ 166 change sorted currency H1 g) as B1.
  destruct (RandomChangeStrategy.tryAttempts
              RandomChangeStrategy.generateRandomWithBiasTowardsLarger
              166 change sorted currency g) as [[c1|] g1]; cbn [snd] in *.
  { eapply within_weaken; [|exact B1]. lia. }
  pose proof (tryAttempts_budget _ _ 166 change sorted currency H2 g1) as B2.
  destruct (RandomChangeStrategy.tryAttempts
              RandomChangeStrategy.generateRandomWithUniformDistribution
              166 change sorted currency g1) as [[c2|] g2]; cbn [snd] in *.
  { eapply within_weaken; [|eapply within_trans; [exact B1 | exact B2]].
    lia. }
  pose proof (tryAttempts_budget _ _ 166 change sorted currency H3 g2) as B3.
  destruct (RandomChangeStrategy.tryAttempts
              RandomChangeStrategy.generateRandomWithBiasTowardsSmaller
              166 change sorted currency g2) as [[c3|] g3]; cbn [snd] in *.
  - eapply within_weaken;
      [|eapply within_trans;
        [eapply within_trans; [exact B1 | exact B2] | exact B3]].
    lia.
  - eapply within_weaken;
      [|eapply within_trans;
        [eapply within_trans; [exact B1 | exact B2] | exact B3]].
    lia.
Qed.

(** X7: a call of the randomized strategy makes a bounded number of
    draws from [Math.random]: at most 664 times the number of
    denominations (166 candidates of each heuristic, one draw per
    denomination for the first two heuristics and two for the third), and
    none at all when the key is in the cache. *)
Theorem calculateChange_draw_budget (self : RandomChangeStrategy.t)
  (transaction : Transaction) (currency : Currency) (g : MathRandom) :
  let out :=
    RandomChangeStrategy.calculateChange self transaction currency g in
  within (664 * List.length (denominations currency)) g (snd out) /\
  (JSMap.get
     (RandomChangeStrategy.cacheKey (changeInCents transaction) currency)
     (RandomChangeStrategy.cache self) <> None ->
   snd out = g).
Proof.
  intros out.
  pose proof (search_budget (changeInCents transaction) currency g) as B.
  destruct (calculateChange_cases self transaction currency g)
    as [(snap & Hhit & E) | [(Hmiss & g1 & Hg & E) | (Hmiss & b & g1 & Hg & E)]];
    unfold out; rewrite E; cbn [snd].
  - split; [|reflexivity].
    apply (within_weaken 0); [lia | apply within_refl].
  - rewrite Hg in B. split; [exact B | intros C; contradiction].
  - rewrite Hg in B. split; [exact B | intros C; contradiction].
Qed.

Lemma calculateChange_draw_budget_witness :
  let out :=
    RandomChangeStrategy.calculateChange
      (fst (RandomChangeStrategy.new (Some 12345) zeroRandom))
      (mkTransaction 0 75) US_CURRENCY (SeededRandom 12345) in
  within (664 * 5) (SeededRandom 12345) (snd out) /\
  snd (RandomChangeStrategy.calculateChange (snd (fst out))
         (mkTransaction 0 75) US_CURRENCY (snd out)) = snd out.
Proof.
  intros out. split.
  - apply (calculateChange_draw_budget
             (fst (RandomChangeStrategy.new (Some 12345) zeroRandom))
             (mkTransaction 0 75) US_CURRENCY (SeededRandom 12345)).
  - apply (calculateChange_draw_budget (snd (fst out)) (mkTransaction 0 75)
             US_CURRENCY (snd out)).
    vm_compute. discriminate.
Defined.

(** X8: a call of the randomized strategy that did not fall back (it
    was answered from the cache or by a successful search) leaves its
    mapping in the cache under the key of the call, and the same call
    made right after it, under any behaviour of [Math.random] and for any
    currency with the same code, returns the very same result and changes
    nothing. *)
Theorem stored_result_is_replayed (self : RandomChangeStrategy.t)
  (transaction : Transaction) (currency : Currency) (g : MathRandom) :
  let key :=
    RandomChangeStrategy.cacheKey (changeInCents transaction) currency in
  let out :=
    RandomChangeStrategy.calculateChange self transaction currency g in
  JSMap.get key (RandomChangeStrategy.cache self) <> None \/
  fst (RandomChangeStrategy.generateOptimizedRandomCombination
         (changeInCents transaction) currency g) <> None ->
  JSMap.get key (RandomChangeStrategy.cache (snd (fst out)))
  = Some (resultDenominations (fst (fst out))) /\
  forall (transaction' : Transaction) (currency' : Currency)
         (g' : MathRandom),
    changeInCents transaction' = changeInCents transaction ->
    code currency' = code currency ->
    RandomChangeStrategy.calculateChange (snd (fst out)) transaction'
      currency' g'
    = (fst (fst out), snd (fst out), g').
Proof.
  intros key out Hcached.
  assert (Hkey : JSMap.get key (RandomChangeStrategy.cache (snd (fst out)))
                 = Some (resultDenominations (fst (fst out))) /\
                 fst (fst out)
                 = {| totalChangeInCents := changeInCents transaction;
                      resultDenominations :=
                        resultDenominations (fst (fst out));
                      formattedOutput :=
                        RandomChangeStrategy.formatOutput
                          (resultDenominations (fst (fst out))) |}).
  { destruct (calculateChange_cases self transaction currency g)
      as [(snap & Hhit & E) | [(Hmiss & g1 & Hg & E) | (Hmiss & b & g1 & Hg & E)]];
      unfold out; rewrite E; cbn [fst snd resultDenominations
        RandomChangeStrategy.cache].
    - split; [exact Hhit | reflexivity].
    - exfalso. destruct Hcached as [C|C]; [now apply C|].
      rewrite Hg in C. now apply C.
    - split; [|reflexivity].
      unfold RandomChangeStrategy.cacheResult. fold key.
      apply get_set_same. }
  destruct Hkey as [Hget Hshape]. split; [exact Hget|].
  intros transaction' currency' g' Hc Hcode.
  unfold RandomChangeStrategy.calculateChange at 1.
  rewrite Hc, (cacheKey_code _ currency' currency Hcode). fold key.
  rewrite Hget. now rewrite <- Hshape.
Qed.

Lemma stored_result_is_replayed_witness :
  let out :=
    RandomChangeStrategy.calculateChange
      (fst (RandomChangeStrategy.new (Some 12345) zeroRandom))
      (mkTransaction 0 75) US_CURRENCY (SeededRandom 12345) in
  RandomChangeStrategy.calculateChange (snd (fst out)) (mkTransaction 25 100)
    OTHER_USD zeroRandom
  = (fst (fst out), snd (fst out), zeroRandom).
Proof.
  intros out.
  apply (stored_result_is_replayed
           (fst (RandomChangeStrategy.new (Some 12345) zeroRandom))
           (mkTransaction 0 75) US_CURRENCY (SeededRandom 12345)).
  - right. vm_compute. discriminate.
  - reflexivity.
  - reflexivity.
Defined.

Lemma digits_noDash (u : uint) : noDash (NilEmpty.string_of_uint u).
Proof.
  induction u; cbn; try exact I; (split; [discriminate | assumption]).
Qed.

Lemma numeral_noDash (u : uint) :
  noDash (NilZero.string_of_uint u) /\ NilZero.string_of_uint u <> ""%string.
Proof.
  destruct u; cbn; (split; [|discriminate]);
    try (split; [discriminate | exact I]);
    (split; [discriminate | apply digits_noDash]).
Qed.

Lemma split_at_dash (d1 d2 x y : string) :
  noDash d1 -> noDash d2 ->
  (d1 ++ "-" ++ x)%string = (d2 ++ "-" ++ y)%string -> d1 = d2 /\ x = y.
Proof.
  revert d2. induction d1 as [|c d1 IH]; intros [|c' d2] H1 H2 E;
    cbn in *.
  - injection E as E. auto.
  - injection E as E _. destruct H2 as [H2 _]. congruence.
  - injection E as E _. destruct H1 as [H1 _]. congruence.
  - injection E as -> E. destruct H1 as [_ H1]. destruct H2 as [_ H2].
    destruct (IH d2 H1 H2 E) as [-> ->]. auto.
Qed.

(** X9: two cache keys are equal only if they were built from the same
    change and the same currency code: the cache never answers a call
    with the entry of another change or another code. *)
Theorem cacheKey_injective (change1 change2 : Z) (c1 c2 : Currency) :
  RandomChangeStrategy.cacheKey change1 c1
  = RandomChangeStrategy.cacheKey change2 c2 <->
  change1 = change2 /\ code c1 = code c2.
Proof.
  split; [|intros [-> E]; unfold RandomChangeStrategy.cacheKey; now rewrite E].
  unfold RandomChangeStrategy.cacheKey. intros E.
  assert (S : numberToString change1 = numberToString change2
              /\ code c1 = code c2).
  { revert E. unfold numberToString.
    destruct (Z.to_int change1) as [u1|u1], (Z.to_int change2) as [u2|u2];
      cbn [NilZero.string_of_int];
      destruct (numeral_noDash u1) as [N1 E1];
      destruct (numeral_noDash u2) as [N2 E2]; intros E.
    - now apply split_at_dash.
    - exfalso. destruct (NilZero.string_of_uint u1) as [|a s1];
        [contradiction|].
      cbn in E. injection E as E _. destruct N1 as [N1 _]. congruence.
    - exfalso. destruct (NilZero.string_of_uint u2) as [|a s2];
        [contradiction|].
      cbn in E. injection E as E _. destruct N2 as [N2 _]. congruence.
    - cbn in E. injection E as E.
      destruct (split_at_dash _ _ _ _ N1 N2 E) as [-> ->]. auto. }
  destruct S as [S ->]. split; [|reflexivity].
  now apply numberToString_inj.
Qed.

(** ** Further properties of the factory *)

Lemma firstApplicable_shift (l : list Strategy) (position : nat)
  (transaction : Transaction) (config : option SpecialRuleConfig) :
  ChangeStrategyFactory.firstApplicable l (S position) transaction config
  = option_map S
      (ChangeStrategyFactory.firstApplicable l position transaction config).
Proof.
  revert position. induction l as [|s l IH]; intros position; cbn;
    [reflexivity|].
  destruct (ChangeStrategy.shouldApply s transaction config);
    [reflexivity | apply IH].
Qed.

(** X10: a strategy added with [addStrategy] is consulted first: when
    it applies [getStrategy] hands it back, and when it does not, the
    choice is the one the factory made before, one position further. *)
Theorem addStrategy_takes_priority (s : Strategy)
  (factory : ChangeStrategyFactory.t) (transaction : Transaction)
  (config : option SpecialRuleConfig) :
  let added := ChangeStrategyFactory.addStrategy s factory in
  let before :=
    ChangeStrategyFactory.getStrategy factory transaction config in
  let after := ChangeStrategyFactory.getStrategy added transaction config in
  (ChangeStrategy.shouldApply s transaction config = true ->
   after = ChangeStrategyFactory.Registered 0 /\
   ChangeStrategyFactory.deref added after = s) /\
  (ChangeStrategy.shouldApply s transaction config = false ->
   after = shifted before /\
   ChangeStrategyFactory.deref added after
   = ChangeStrategyFactory.deref factory before).
Proof.
  intros added before after.
  unfold after, before, added, ChangeStrategyFactory.getStrategy,
    ChangeStrategyFactory.addStrategy.
  cbn [ChangeStrategyFactory.strategies
         ChangeStrategyFactory.firstApplicable].
  split; intros Hs; rewrite Hs.
  - split; reflexivity.
  - rewrite firstApplicable_shift.
    destruct (ChangeStrategyFactory.firstApplicable _ 0 transaction config);
      split; reflexivity.
Qed.

Lemma addStrategy_takes_priority_witness :
  let added :=
    ChangeStrategyFactory.addStrategy Greedy
      (fst (ChangeStrategyFactory.new zeroRandom)) in
  ChangeStrategyFactory.getStrategy added (mkTransaction 200 300)
    (Some defaultRule) = ChangeStrategyFactory.Registered 0 /\
  ChangeStrategyFactory.getStrategy added (mkTransaction 100 268)
    (Some defaultRule) = ChangeStrategyFactory.Registered 1.
Proof.
  intros added. split.
  - apply (addStrategy_takes_priority Greedy
             (fst (ChangeStrategyFactory.new zeroRandom))
             (mkTransaction 200 300) (Some defaultRule)).
    reflexivity.
  - apply (addStrategy_takes_priority Greedy
             (fst (ChangeStrategyFactory.new zeroRandom))
             (mkTransaction 100 268) (Some defaultRule)).
    reflexivity.
Defined.

(** ** The batch endpoint *)

Lemma calculateChange_total (self : ChangeCalculator.t) (owed paid : Z)
  (g : MathRandom) (result : ChangeResult) :
  fst (fst (ChangeCalculator.calculateChange self owed paid g)) = inr result ->
  totalChangeInCents result = paid - owed.
Proof.
  unfold ChangeCalculator.calculateChange.
  destruct (ChangeCalculator.validateAmounts owed paid); [discriminate|].
  destruct (Z.eqb_spec (paid - owed) 0) as [E|_].
  - intros [= <-]. cbn. lia.
  - destruct (ChangeStrategyFactory.deref _ _) as [random|];
      cbn [ChangeStrategy.calculateChange].
    + match goal with
      | |- context [RandomChangeStrategy.calculateChange ?s ?t ?c ?g0] =>
          destruct (calculateChange_cases s t c g0)
            as [(snap & _ & E) | [(_ & g1 & _ & E) | (_ & b & g1 & _ & E)]];
          rewrite E
      end; intros [= <-]; reflexivity.
    + intros [= <-]. reflexivity.
Qed.

Lemma sum_totals (results : list ChangeResult) (start : Z) :
  fold_left (fun sum result => sum + totalChangeInCents result) results start
  = start + fold_right (fun result sum => totalChangeInCents result + sum)
              0 results.
Proof.
  revert start. induction results as [|r rs IH]; intros start; cbn;
    [lia|]. rewrite IH. lia.
Qed.

Lemma calculateEach_outcome (pairs : list (float * float)) :
  forall (calculator : ChangeCalculator.t) (g : MathRandom),
  match firstInvalid pairs with
  | Some e =>
      fst (fst (ChangeCalculatorController.calculateEach calculator pairs g))
      = inl e
  | None =>
      exists results,
        fst (fst (ChangeCalculatorController.calculateEach calculator
                    pairs g)) = inr results /\
        List.length results = List.length pairs /\
        fold_right (fun result sum => totalChangeInCents result + sum)
          0 results = batchChange pairs
  end.
Proof.
  induction pairs as [|[o p] rest IH]; intros calculator g.
  - cbn. exists []. auto.
  - cbn [firstInvalid ChangeCalculatorController.calculateEach].
    fold (ChangeCalculator.toCents o). fold (ChangeCalculator.toCents p).
    destruct (ChangeCalculator.validateAmounts _ _) as [e|] eqn:V.
    + now rewrite (calculateChange_throws _ _ _ _ _ V).
    + destruct (calculateChange_returns calculator _ _ g V)
        as (r & c1 & g1 & E).
      pose proof (calculateChange_total calculator
                    (ChangeCalculator.toCents o) (ChangeCalculator.toCents p)
                    g r) as T.
      rewrite E in T |- *. specialize (T eq_refl). specialize (IH c1 g1).
      destruct (ChangeCalculatorController.calculateEach c1 rest g1)
        as [[[e|rs] c2] g2]; cbn [fst] in IH |- *.
      * destruct (firstInvalid rest); [assumption|].
        destruct IH as (rs & H & _). discriminate.
      * destruct (firstInvalid rest); [discriminate|].
        destruct IH as (rs' & [= <-] & L & S).
        exists (r :: rs). split; [reflexivity|]. split; [cbn; now rewrite L|].
        cbn. rewrite S, T. reflexivity.
Qed.

(** X11: the batch endpoint answers a request without transactions
    with the error INVALID_TRANSACTIONS and does nothing else; for a
    non-empty batch in a registered currency it either forwards the error
    of the first pair that fails validation, which the error handler
    answers with status 422 and the message and code of the error, or
    responds with one result per pair and a summary whose total is the sum
    over the pairs of paid minus owed, in cents. *)
Theorem calculateBatchChange_outcome
  (body : ChangeCalculatorController.BatchChangeRequest) (g : MathRandom) :
  let requested :=
    match ChangeCalculatorController.currency body with
    | Some c => c
    | None => "USD"%string
    end in
  (ChangeCalculatorController.transactions body = None \/
   ChangeCalculatorController.transactions body = Some [] ->
   ChangeCalculatorController.calculateBatchChange body g
   = (ChangeCalculatorController.BadRequest
        "Transactions array is required and must not be empty"
        "INVALID_TRANSACTIONS", g)) /\
  (forall pairs,
     ChangeCalculatorController.transactions body = Some pairs ->
     pairs <> [] ->
     In requested getAvailableCurrencyCodes ->
     match firstInvalid pairs with
     | Some e =>
         fst (ChangeCalculatorController.calculateBatchChange body g)
         = ChangeCalculatorController.Forwarded e /\
         ErrorHandler.handleError e = (422, errorMessage e, errorCode e)
     | None =>
         exists results,
           fst (ChangeCalculatorController.calculateBatchChange body g)
           = ChangeCalculatorController.Responded results
               {| ChangeCalculatorController.totalTransactions :=
                    Z.of_nat (List.length pairs);
                  ChangeCalculatorController.summaryTotalChangeInCents :=
                    batchChange pairs;
                  ChangeCalculatorController.summaryCurrency := requested |}
           /\ List.length results = List.length pairs
     end).
Proof.
  intros requested. split.
  - unfold ChangeCalculatorController.calculateBatchChange.
    intros [-> | ->]; reflexivity.
  - intros pairs Ht Hne Hin.
    unfold ChangeCalculatorController.calculateBatchChange.
    rewrite Ht. destruct pairs as [|pair rest]; [contradiction|].
    fold requested.
    assert (Hreg : exists cur,
               registryLookup requested = Some (RegisteredCurrency cur)).
    { cbn in Hin. destruct Hin as [<-|[<-|[]]]; cbn; eauto. }
    destruct Hreg as [cur ->].
    set (rule := match ChangeCalculatorController.specialRule body with
                 | Some r => r
                 | None => _
                 end).
    destruct (ChangeCalculator.new cur rule None g) as [calculator g0].
    pose proof (calculateEach_outcome (pair :: rest) calculator g0) as H.
    destruct (firstInvalid (pair :: rest)) as [e|].
    + destruct (ChangeCalculatorController.calculateEach calculator
                  (pair :: rest) g0) as [[[e'|rs] c1] g1];
        cbn [fst] in H; [|discriminate].
      injection H as ->. split; [reflexivity|].
      destruct e; reflexivity.
    + destruct H as (results & E & L & S).
      destruct (ChangeCalculatorController.calculateEach calculator
                  (pair :: rest) g0) as [[[e'|rs] c1] g1];
        cbn [fst] in E; [discriminate|].
      injection E as ->. exists results. split; [|assumption].
      cbn [fst]. rewrite sum_totals, S. reflexivity.
Qed.

Lemma calculateBatchChange_outcome_witness :
  exists results,
    fst (ChangeCalculatorController.calculateBatchChange
           {| ChangeCalculatorController.transactions :=
                Some [(2.12, 3.00); (1.97, 2.00); (3.33, 5.00)]%float;
              ChangeCalculatorController.currency := Some "EUR"%string;
              ChangeCalculatorController.specialRule := None |}
           (SeededRandom 12345))
    = ChangeCalculatorController.Responded results
        {| ChangeCalculatorController.totalTransactions := 3;
           ChangeCalculatorController.summaryTotalChangeInCents := 258;
           ChangeCalculatorController.summaryCurrency := "EUR" |}
    /\ List.length results = 3%nat.
Proof.
  pose proof (calculateBatchChange_outcome
                {| ChangeCalculatorController.transactions :=
                     Some [(2.12, 3.00); (1.97, 2.00); (3.33, 5.00)]%float;
                   ChangeCalculatorController.currency := Some "EUR"%string;
                   ChangeCalculatorController.specialRule := None |}
                (SeededRandom 12345)) as [_ H].
  specialize (H _ eq_refl).
  replace (firstInvalid [(2.12, 3.00); (1.97, 2.00); (3.33, 5.00)]%float)
    with (@None CashRegisterError) in H by (vm_compute; reflexivity).
  destruct H as (results & E & L).
  - discriminate.
  - cbn. auto.
  - exists results. split; [|assumption].
    rewrite E. reflexivity.
Defined.

(** X12: the lines that [processTransactions] returns are the
    formatted outputs of the results that the batch endpoint computes for
    the same pairs, from the same calculator and the same draws; both end
    at the same error, and leave the same state. *)
Theorem processTransactions_matches_endpoint (pairs : list (float * float)) :
  forall (self : ChangeCalculator.t) (g : MathRandom),
  ChangeCalculator.processTransactions self pairs g
  = match ChangeCalculatorController.calculateEach self pairs g with
    | (inl e, self', g') => (inl e, self', g')
    | (inr results, self', g') =>
        (inr (map formattedOutput results), self', g')
    end.
Proof.
  induction pairs as [|[o p] rest IH]; intros self g.
  - reflexivity.
  - cbn [ChangeCalculator.processTransactions
           ChangeCalculatorController.calculateEach].
    unfold ChangeCalculator.toCents.
    destruct (ChangeCalculator.calculateChange self _ _ g)
      as [[[e|r] self1] g1]; [reflexivity|].
    rewrite IH.
    destruct (ChangeCalculatorController.calculateEach self1 rest g1)
      as [[[e|rs] self2] g2]; reflexivity.
Qed.

(** ** The registry *)

(** X13: a code resolves to a currency with [getCurrencyByCode]
    exactly when [getAvailableCurrencyCodes] lists it; the currency found
    carries that code, meets the data model with a unit denomination, and
    lists its denominations largest first.  A name that the registry
    object inherits from [Object.prototype] is no registered code, and yet
    raises no error: the inherited member is returned in place of a
    currency.  Every other code gives the error "Unsupported currency
    code". *)
Theorem registry_round_trip (c : string) :
  (In c getAvailableCurrencyCodes <->
   exists currency, getCurrencyByCode c = inr (RegisteredCurrency currency)) /\
  (forall currency,
     getCurrencyByCode c = inr (RegisteredCurrency currency) ->
     code currency = c /\ wellFormed currency /\
     sortDescending (denominations currency) = denominations currency) /\
  (In c OBJECT_PROTOTYPE_NAMES ->
   ~ In c getAvailableCurrencyCodes /\
   getCurrencyByCode c = inr (InheritedMember c)) /\
  (~ In c getAvailableCurrencyCodes ->
   ~ In c OBJECT_PROTOTYPE_NAMES ->
   getCurrencyByCode c = inl ("Unsupported currency code: " ++ c)%string).
Proof.
  assert (Wus : wellFormed US_CURRENCY) by exact US_CURRENCY_wellFormed.
  assert (Weu : wellFormed EUR_CURRENCY).
  { constructor.
    - repeat constructor.
    - cbn. repeat constructor; cbn; intuition discriminate.
    - exists {| name := "1-cent"; valueInCents := 1 |}. cbn. auto 10. }
  split; [|split; [|split]].
  - split.
    + cbn. intros [<-|[<-|[]]]; eexists; reflexivity.
    + intros [currency H]. apply registered_currency in H.
      cbn. destruct H as [[-> _]|[-> _]]; auto.
  - intros currency H. apply registered_currency in H.
    destruct H as [[-> ->]|[-> ->]];
      (split; [reflexivity | split; [assumption | reflexivity]]).
  - intros H. cbn in H.
    repeat (destruct H as [<-|H];
            [split; [cbn; intuition discriminate | reflexivity]|]).
    destruct H.
  - intros Hcode Hname. unfold getCurrencyByCode, registryLookup.
    destruct (JSMap.get c CURRENCY_REGISTRY) as [currency|] eqn:G.
    + exfalso. apply Hcode. cbn in G |- *.
      destruct (String.eqb_spec c "USD"); [auto|].
      destruct (String.eqb_spec c "EUR"); [auto | discriminate].
    + destruct (existsb (String.eqb c) OBJECT_PROTOTYPE_NAMES) eqn:E;
        [|reflexivity].
      exfalso. apply Hname. apply existsb_exists in E.
      destruct E as (n & Hin & Heq). apply String.eqb_eq in Heq.
      now subst n.
Qed.

Lemma registry_round_trip_witness :
  (code EUR_CURRENCY = "EUR"%string /\ wellFormed EUR_CURRENCY) /\
  getCurrencyByCode "constructor" = inr (InheritedMember "constructor") /\
  getCurrencyByCode "GBP" = inl "Unsupported currency code: GBP"%string.
Proof.
  destruct (registry_round_trip "EUR") as (_ & H & _).
  destruct (H EUR_CURRENCY eq_refl) as (H1 & H2 & _).
  destruct (registry_round_trip "constructor") as (_ & _ & H3 & _).
  destruct (registry_round_trip "GBP") as (_ & _ & _ & H4).
  split; [split; [exact H1 | exact H2]|]. split.
  - apply H3. cbn. auto.
  - apply H4; cbn; intuition discriminate.
Defined.
